(** * Tensor utilities of the Transformer-XL language model (utils.py)

    A shallow embedding of the four helpers of [utils.py]
    ([get_positional_encoding], [get_look_ahead_mask], [rel_shift],
    [cache_memory]) over a small model of the TensorFlow operations they
    call.  A tensor is a shape together with its row-major flat buffer,
    which is the view [tf.reshape] works on. *)

From Stdlib Require Import List ZArith Lia Bool Arith Reals.
Import ListNotations.

Set Implicit Arguments.

(** ** Fallible computations

    A TensorFlow call that rejects its arguments (shape mismatch, invalid
    argument) is [None]. *)

Notation "x <- e ;; k" :=
  (match e with Some x => k | None => None end)
  (at level 61, e at next level, right associativity).

(** ** The tensor model *)

Module TF.

Record Tensor (A : Type) : Type := mkTensor {
  shape : list nat;
  data : list A
}.

(** Number of elements of a shape. *)
Definition numel (s : list nat) : nat := fold_right Nat.mul 1 s.

Definition well_formed {A} (t : Tensor A) : Prop :=
  length (data t) = numel (shape t).

(** [chunks n k l]: the first [n] consecutive blocks of length [k] of the
    buffer [l]. *)
Fixpoint chunks {A} (n k : nat) (l : list A) : list (list A) :=
  match n with
  | O => []
  | S n' => firstn k l :: chunks n' k (skipn k l)
  end.

Section Ops.
Variable A : Type.

(** [tf.reshape]: the buffer is kept, the shape replaced; the element
    counts must agree. *)
Definition tf_reshape (t : Tensor A) (s : list nat) : option (Tensor A) :=
  if numel s =? length (data t) then Some (mkTensor s (data t)) else None.

(** [tf.pad] in constant mode: [paddings] gives, for every axis, how many
    zeros go before and after. *)
Fixpoint padded_shape (s : list nat) (p : list (nat * nat)) : list nat :=
  match s, p with
  | n :: s', (lo, hi) :: p' => (lo + n + hi) :: padded_shape s' p'
  | _, _ => []
  end.

Fixpoint pad_data (zero : A) (s : list nat) (p : list (nat * nat))
    (d : list A) : list A :=
  match s, p with
  | n :: s', (lo, hi) :: p' =>
      let inner := numel (padded_shape s' p') in
      repeat zero (lo * inner)
      ++ flat_map (pad_data zero s' p') (chunks n (numel s') d)
      ++ repeat zero (hi * inner)
  | _, _ => d
  end.

Definition tf_pad (zero : A) (t : Tensor A) (paddings : list (nat * nat))
    : option (Tensor A) :=
  if length paddings =? length (shape t)
  then Some (mkTensor (padded_shape (shape t) paddings)
                      (pad_data zero (shape t) paddings (data t)))
  else None.

(** Slicing [t[b0:, b1:, ...]]: one optional begin per leading axis
    ([None] is a bare [:]); a negative begin counts from the end, and
    every begin is clipped to the axis. *)
Definition slice_begin (b : option Z) (n : nat) : nat :=
  match b with
  | None => 0
  | Some z =>
      if (z <? 0)%Z then Z.to_nat (Z.max 0 (z + Z.of_nat n))
      else Nat.min (Z.to_nat z) n
  end.

Fixpoint sliced_shape (s : list nat) (bs : list (option Z)) : list nat :=
  match s, bs with
  | n :: s', b :: bs' => (n - slice_begin b n) :: sliced_shape s' bs'
  | _, _ => s
  end.

Fixpoint slice_data (s : list nat) (bs : list (option Z)) (d : list A)
    : list A :=
  match s, bs with
  | n :: s', b :: bs' =>
      flat_map (slice_data s' bs')
               (skipn (slice_begin b n) (chunks n (numel s') d))
  | _, _ => d
  end.

Definition tf_slice (t : Tensor A) (bs : list (option Z))
    : option (Tensor A) :=
  if length bs <=? length (shape t)
  then Some (mkTensor (sliced_shape (shape t) bs)
                      (slice_data (shape t) bs (data t)))
  else None.

(** [tf.concat] along [axis]: the other dimensions must agree. *)
Fixpoint concat_shape (axis : nat) (s1 s2 : list nat)
    : option (list nat) :=
  match s1, s2 with
  | n1 :: t1, n2 :: t2 =>
      match axis with
      | O => if list_eq_dec Nat.eq_dec t1 t2
             then Some ((n1 + n2) :: t1) else None
      | S a => if n1 =? n2
               then option_map (cons n1) (concat_shape a t1 t2)
               else None
      end
  | _, _ => None
  end.

Fixpoint zip_with {B C} (f : A -> B -> C) (l1 : list A) (l2 : list B)
    : list C :=
  match l1, l2 with
  | x :: l1', y :: l2' => f x y :: zip_with f l1' l2'
  | _, _ => []
  end.

End Ops.

Section Concat.
Variable A : Type.

Fixpoint concat_data (axis : nat) (s1 s2 : list nat) (d1 d2 : list A)
    : list A :=
  match axis, s1, s2 with
  | O, _, _ => d1 ++ d2
  | S a, n1 :: t1, n2 :: t2 =>
      concat (zip_with (concat_data a t1 t2)
                       (chunks n1 (numel t1) d1) (chunks n2 (numel t2) d2))
  | _, _, _ => []
  end.

Definition tf_concat (t1 t2 : Tensor A) (axis : nat) : option (Tensor A) :=
  s <- concat_shape axis (shape t1) (shape t2) ;;
  Some (mkTensor s (concat_data axis (shape t1) (shape t2)
                                (data t1) (data t2))).

(** [tf.stop_gradient] is the identity on values; it only cuts the
    automatic-differentiation graph, which this value-level model does not
    represent. *)
Definition tf_stop_gradient (t : Tensor A) : Tensor A := t.

(** Element-wise application of a function (also an operation with a
    scalar operand, which TensorFlow broadcasts). *)
Definition tmap {B} (f : A -> B) (t : Tensor A) : Tensor B :=
  mkTensor (shape t) (map f (data t)).

(** Element-wise binary operation on tensors of one shape (the only case
    the utilities use; broadcasting is not modelled). *)
Definition tf_binary (f : A -> A -> A) (t1 t2 : Tensor A)
    : option (Tensor A) :=
  if list_eq_dec Nat.eq_dec (shape t1) (shape t2)
  then Some (mkTensor (shape t1) (zip_with f (data t1) (data t2)))
  else None.

(** A shape given as Python integers; a negative dimension is rejected. *)
Definition dims (s : list Z) : option (list nat) :=
  if forallb (fun z => 0 <=? z)%Z s then Some (map Z.to_nat s) else None.

(** [tf.ones], [tf.zeros]: a tensor filled with one value. *)
Definition tf_fill (v : A) (s : list Z) : option (Tensor A) :=
  sh <- dims s ;;
  Some (mkTensor sh (repeat v (numel sh))).

(** [tf.linalg.band_part] on a matrix: entry [(m, n)] is kept when it lies
    within [num_lower] sub-diagonals and [num_upper] super-diagonals (a
    negative bound keeps the whole triangle) and is zeroed otherwise. *)
Definition in_band (num_lower num_upper : Z) (m n : nat) : bool :=
  ((num_lower <? 0) || (Z.of_nat m - Z.of_nat n <=? num_lower))%Z
  && ((num_upper <? 0) || (Z.of_nat n - Z.of_nat m <=? num_upper))%Z.

Definition tf_band_part (zero : A) (t : Tensor A) (num_lower num_upper : Z)
    : option (Tensor A) :=
  match shape t with
  | [rows; cols] =>
      Some (mkTensor [rows; cols]
        (flat_map (fun m =>
           map (fun n => if in_band num_lower num_upper m n
                         then nth (m * cols + n) (data t) zero else zero)
               (seq 0 cols))
           (seq 0 rows)))
  | _ => None
  end.

(** Indexing with a leading [tf.newaxis]. *)
Definition tf_newaxis (t : Tensor A) : Tensor A :=
  mkTensor (1 :: shape t) (data t).

(** [tf.einsum('i,j->ij', u, v)]: the outer product of two vectors. *)
Definition tf_einsum_outer (mul : A -> A -> A) (u v : Tensor A)
    : option (Tensor A) :=
  match shape u, shape v with
  | [n], [k] =>
      Some (mkTensor [n; k]
              (flat_map (fun x => map (mul x) (data v)) (data u)))
  | _, _ => None
  end.

(** Entry of a matrix and of a 4D tensor in the row-major buffer. *)
Definition get2 (d : A) (t : Tensor A) (i j : nat) : A :=
  match shape t with
  | [_; cols] => nth (i * cols + j) (data t) d
  | _ => d
  end.

Definition get4 (d : A) (t : Tensor A) (b h i c : nat) : A :=
  match shape t with
  | [_; heads; q_len; r_len] =>
      nth (((b * heads + h) * q_len + i) * r_len + c) (data t) d
  | _ => d
  end.

End Concat.

(** [tf.range(start, limit, delta)]: the integers
    [start, start + delta, ...] that stay before [limit]; a zero step or a
    step pointing away from [limit] is rejected. *)
Definition range_size (start limit delta : Z) : nat :=
  Z.to_nat ((Z.abs (limit - start) + Z.abs delta - 1) / Z.abs delta).

Definition range_values (start limit delta : Z) : option (list Z) :=
  if (delta =? 0)%Z then None
  else if ((0 <? delta) && (limit <? start))%Z then None
  else if ((delta <? 0) && (start <? limit))%Z then None
  else Some (map (fun i => (start + Z.of_nat i * delta)%Z)
                 (seq 0 (range_size start limit delta))).

End TF.

Import TF.

(** ** rel_shift (utils.py, lines 61-92)

    [shape[3]] needs an input of rank at least four and the four rows of
    [paddings] one of rank exactly four; any other rank is rejected. *)

Section RelShift.
Variable A : Type.
Variable zero : A.

Definition rel_shift (inputs : Tensor A) : option (Tensor A) :=
  match shape inputs with
  | [s0; s1; s2; s3] =>
      padded <- tf_pad zero inputs [(0, 0); (0, 0); (0, 0); (1, 0)] ;;
      reshaped <- tf_reshape padded [s0; s1; s3 + 1; s2] ;;
      sliced <- tf_slice reshaped [None; None; Some 1%Z] ;;
      tf_reshape sliced (shape inputs)
  | _ => None
  end.

End RelShift.

(** The slice of a 4D tensor described in words: prepend a zero column to
    the [q_len] rows of length [r_len], read the flat buffer as
    [r_len + 1] rows of length [q_len], drop the first of these rows, and
    read what is left as [q_len] rows of length [r_len] again (the flat
    buffer of that last reading is what is returned). *)
Definition rel_shift_slice (A : Type) (zero : A) (q_len r_len : nat)
    (slice : list A) : list A :=
  let with_zero_column := flat_map (cons zero) (chunks q_len r_len slice) in
  let as_rows_of_q := chunks (r_len + 1) q_len with_zero_column in
  concat (chunks q_len r_len (concat (tl as_rows_of_q))).

(** A slice with its zero column prepended, as a flat buffer. *)
Definition pad_slice (A : Type) (zero : A) (q_len r_len : nat)
    (slice : list A) : list A :=
  flat_map (cons zero) (chunks q_len r_len slice).

(** The slice of the docstring of [rel_shift]. *)
Definition slice_4x3 : Tensor Z :=
  mkTensor [1; 1; 4; 3] [0; 1; 2; 3; 4; 5; 6; 7; 8; 9; 10; 11]%Z.

(** ** get_look_ahead_mask (utils.py, lines 26-58)

    The mask holds only the floats [0.0] and [1.0], on which the one
    subtraction of the function is exact; they are modelled by the
    integers [0] and [1]. *)

Definition get_look_ahead_mask (q_seq_len m_seq_len : Z)
    : option (Tensor Z) :=
  mask <- tf_fill 1%Z [q_seq_len; q_seq_len] ;;
  mask_u <- tf_band_part 0%Z mask 0 (-1) ;;
  mask_dia <- tf_band_part 0%Z mask 0 0 ;;
  mask_pad <- tf_fill 0%Z [q_seq_len; m_seq_len] ;;
  diff <- tf_binary Z.sub mask_u mask_dia ;;
  look_ahead_mask <- tf_concat mask_pad diff 1 ;;
  Some (tf_newaxis (tf_newaxis look_ahead_mask)).

(** The mask described in words: row [i] has [m] zeros, then a one in
    every query column strictly after column [i]. *)
Definition strict_upper (i k : nat) : Z := if i <? k then 1%Z else 0%Z.

Definition look_ahead_rows (q m : nat) : list (list Z) :=
  map (fun i => repeat 0%Z m ++ map (strict_upper i) (seq 0 q)) (seq 0 q).

(** ** cache_memory (utils.py, lines 95-113)

    [m_seq_len] is [None] when the caller leaves it out; it then defaults
    to [tf.shape(memory)[1]]. *)

Section CacheMemory.
Variable A : Type.

Definition cache_memory (memory embeddings : Tensor A)
    (m_seq_len : option Z) : option (Tensor A) :=
  m_seq_len <-
    match m_seq_len with
    | None => option_map Z.of_nat (nth_error (shape memory) 1)
    | Some m => Some m
    end ;;
  cat <- tf_concat memory embeddings 1 ;;
  sliced <- tf_slice cat [None; Some (- m_seq_len)%Z] ;;
  Some (tf_stop_gradient sliced).

End CacheMemory.

(** The time-axis concatenation, one sequence per batch element. *)
Definition concat_time (A : Type) (b m_len q_len hidden : nat)
    (memory embeddings : list A) : list (list A) :=
  zip_with (@app A) (chunks b (m_len * hidden) memory)
                    (chunks b (q_len * hidden) embeddings).

(** The last [n] time steps of one sequence of [hidden]-wide steps. *)
Definition last_steps (A : Type) (n hidden : nat) (x : list A) : list A :=
  skipn (length x - n * hidden) x.

(** One cached step and one new step, for a single batch element of hidden
    size one. *)
Definition memory_1 : Tensor Z := mkTensor [1; 1; 1] [1]%Z.
Definition embeddings_1 : Tensor Z := mkTensor [1; 1; 1] [2]%Z.

(** ** get_positional_encoding (utils.py, lines 5-23)

    The function is generic in the arithmetic of its float tensors: the
    scalar operations it uses are the fields of [Scalar].  [of_Z] is the
    conversion of an integer to a float ([tf.range] with the float steps
    [-1.0] and [2.0] yields integer-valued floats). *)

Class Scalar (F : Type) : Type := {
  of_Z : Z -> F;
  fmul : F -> F -> F;
  fdiv : F -> F -> F;
  fpow : F -> F -> F;
  fsin : F -> F;
  fcos : F -> F
}.

#[export] Instance R_Scalar : Scalar R := {
  of_Z := IZR;
  fmul := Rmult;
  fdiv := Rdiv;
  fpow := Rpower;
  fsin := sin;
  fcos := cos
}.

Section PositionalEncoding.
Context {F : Type} `{Scalar F}.

(** [tf.range] with a float step: the values of [range_values] as floats. *)

Definition tf_range (start limit delta : Z) : option (Tensor F) :=
  vs <- range_values start limit delta ;;
  Some (mkTensor [length vs] (map of_Z vs)).

Definition get_positional_encoding (seq_len hidden_size : Z)
    : option (Tensor F) :=
  distances <- tf_range (seq_len - 1) (-1) (-1) ;;
  evens <- tf_range 0 hidden_size 2 ;;
  let inverse_frequencies :=
    tmap (fdiv (of_Z 1))
      (tmap (fpow (of_Z 10000))
         (tmap (fun x => fdiv x (of_Z hidden_size)) evens)) in
  positional_encoding <-
    tf_einsum_outer fmul distances inverse_frequencies ;;
  tf_concat (tmap fsin positional_encoding)
            (tmap fcos positional_encoding) 1.

(** The encoding described in words. *)
Definition inv_freq (hidden_size : Z) (j : nat) : F :=
  fdiv (of_Z 1)
       (fpow (of_Z 10000)
             (fdiv (of_Z (2 * Z.of_nat j)) (of_Z hidden_size))).

Definition angle (seq_len hidden_size : Z) (i j : nat) : F :=
  fmul (of_Z (seq_len - 1 - Z.of_nat i)) (inv_freq hidden_size j).

(** Row [i]: the sines of its [half] angles, then their cosines. *)
Definition encoding_row (seq_len hidden_size : Z) (half i : nat) : list F :=
  map (fun j => fsin (angle seq_len hidden_size i j)) (seq 0 half)
  ++ map (fun j => fcos (angle seq_len hidden_size i j)) (seq 0 half).

Definition positional_encoding_rows (seq_len hidden_size : Z)
    : list (list F) :=
  map (encoding_row seq_len hidden_size (Z.to_nat (hidden_size / 2)))
      (seq 0 (Z.to_nat seq_len)).

End PositionalEncoding.

(** * Properties *)

(** ** Blocks of a flat buffer *)

Section Chunks.
Variable A : Type.
Implicit Types (l : list A) (ls : list (list A)).

Lemma length_chunks n k l : length (chunks n k l) = n.
Proof. revert l; induction n; simpl; intros; auto. Qed.

Lemma chunks_each n k l :
  n * k <= length l -> Forall (fun c => length c = k) (chunks n k l).
Proof.
  revert l; induction n; simpl; intros l Hl; constructor.
  - rewrite length_firstn. lia.
  - apply IHn. rewrite length_skipn. lia.
Qed.

Lemma concat_chunks n k l : length l = n * k -> concat (chunks n k l) = l.
Proof.
  revert l; induction n; simpl; intros l Hl.
  - destruct l; simpl in *; congruence.
  - rewrite IHn by (rewrite length_skipn; lia).
    apply firstn_skipn.
Qed.

Lemma concat_chunks_firstn n k l :
  concat (chunks n k l) = firstn (n * k) l.
Proof.
  revert l; induction n; simpl; intros l; auto.
  rewrite IHn.
  rewrite <- (firstn_skipn k l) at 3.
  destruct (Nat.le_gt_cases k (length l)) as [Hk | Hk].
  - rewrite firstn_app, length_firstn, Nat.min_l by lia.
    rewrite (firstn_all2 (n := k + n * k) (firstn k l))
      by (rewrite length_firstn; lia).
    do 2 f_equal. lia.
  - rewrite (skipn_all2 l) by lia.
    rewrite firstn_nil, !app_nil_r, firstn_firstn.
    f_equal. lia.
Qed.

Lemma chunks_concat_app ls k rest :
  Forall (fun c => length c = k) ls ->
  chunks (length ls) k (concat ls ++ rest) = ls.
Proof.
  induction 1 as [| c ls Hc Hls IH]; simpl; auto.
  rewrite <- app_assoc.
  rewrite firstn_app, Hc, Nat.sub_diag, firstn_all2 by lia.
  simpl; rewrite app_nil_r.
  rewrite skipn_app, Hc, Nat.sub_diag, skipn_all2 by lia.
  simpl. now rewrite IH.
Qed.

Lemma chunks_concat ls k :
  Forall (fun c => length c = k) ls ->
  chunks (length ls) k (concat ls) = ls.
Proof.
  intros Hls. rewrite <- (app_nil_r (concat ls)).
  now apply chunks_concat_app.
Qed.

Lemma chunks_firstn n m k l :
  n * k <= m -> chunks n k (firstn m l) = chunks n k l.
Proof.
  revert m l; induction n; simpl; intros m l Hm; auto.
  rewrite firstn_firstn, Nat.min_l by lia.
  rewrite skipn_firstn_comm.
  rewrite IHn by lia. reflexivity.
Qed.

Lemma chunks_add n m k l :
  chunks (n + m) k l = chunks n k l ++ chunks m k (skipn (n * k) l).
Proof.
  revert l; induction n; simpl; intros l; auto.
  rewrite IHn. do 3 f_equal.
  rewrite skipn_skipn. f_equal. lia.
Qed.

Lemma chunks_chunks b h k l :
  concat (map (chunks h k) (chunks b (h * k) l)) = chunks (b * h) k l.
Proof.
  revert l; induction b; simpl; intros l; auto.
  rewrite IHb, chunks_add.
  now rewrite chunks_firstn by lia.
Qed.

Lemma flat_map_chunks_chunks B (f : list A -> list B) b h k l :
  flat_map (fun x => flat_map f (chunks h k x)) (chunks b (h * k) l)
  = flat_map f (chunks (b * h) k l).
Proof.
  revert l; induction b; simpl; intros l; auto.
  rewrite IHb, chunks_add, flat_map_app.
  now rewrite chunks_firstn by lia.
Qed.

Lemma length_concat_uniform ls k :
  Forall (fun c => length c = k) ls -> length (concat ls) = length ls * k.
Proof.
  induction 1 as [| c ls Hc Hls IH]; simpl; auto.
  rewrite length_app. lia.
Qed.

Lemma nth_concat_uniform ls k i j d :
  Forall (fun c => length c = k) ls ->
  j < k ->
  nth (i * k + j) (concat ls) d = nth j (nth i ls []) d.
Proof.
  intros Hls Hj. revert i.
  induction Hls as [| c ls Hc Hls IH]; intros i; simpl.
  - now destruct (i * k + j), i, j.
  - destruct i; simpl.
    + apply app_nth1. lia.
    + rewrite app_nth2 by lia.
      replace (k + i * k + j - length c) with (i * k + j) by lia.
      apply IH.
Qed.

Lemma nth_chunks n k l i :
  i < n -> nth i (chunks n k l) [] = firstn k (skipn (i * k) l).
Proof.
  revert l i; induction n; simpl; intros l i Hi; [lia |].
  destruct i; simpl; auto.
  rewrite IHn by lia. rewrite skipn_skipn.
  do 2 f_equal. lia.
Qed.

End Chunks.



Lemma flat_map_ext_Forall A B (f g : A -> list B) l :
  Forall (fun x => f x = g x) l -> flat_map f l = flat_map g l.
Proof. induction 1; simpl; congruence. Qed.

(** ** rel_shift *)

Section RelShiftProofs.
Variable A : Type.
Variable zero : A.

Lemma pad_data_row r (row : list A) :
  length row = r -> pad_data zero [r] [(1, 0)] row = zero :: row.
Proof.
  intros Hr. simpl. rewrite app_nil_r.
  rewrite flat_map_concat_map, map_id.
  rewrite concat_chunks by lia. reflexivity.
Qed.

Lemma length_pad_slice q r s :
  length s = q * r -> length (pad_slice zero q r s) = (r + 1) * q.
Proof.
  intros Hs. unfold pad_slice.
  rewrite flat_map_concat_map.
  rewrite length_concat_uniform with (k := S r).
  - rewrite length_map, length_chunks. lia.
  - apply Forall_map.
    eapply Forall_impl; [| apply chunks_each; lia].
    simpl; intros c Hc. now rewrite Hc.
Qed.

Lemma pad_data_last b h q r (d : list A) :
  length d = b * h * q * r ->
  pad_data zero [b; h; q; r] [(0, 0); (0, 0); (0, 0); (1, 0)] d
  = flat_map (pad_slice zero q r) (chunks (b * h) (q * r) d).
Proof.
  intros Hd.
  transitivity
    (flat_map
       (fun d0 =>
          flat_map (fun d1 => flat_map (pad_data zero [r] [(1, 0)])
                                       (chunks q r d1))
                   (chunks h (q * r) d0))
       (chunks b (h * (q * r)) d)).
  { cbn [pad_data padded_shape numel fold_right].
    rewrite app_nil_r, !Nat.mul_1_r.
    apply flat_map_ext; intros d0. rewrite app_nil_r.
    apply flat_map_ext; intros d1. now rewrite app_nil_r. }
  rewrite flat_map_chunks_chunks.
  apply flat_map_ext_Forall.
  eapply Forall_impl; [| apply chunks_each; nia].
  cbv beta; intros s Hs. apply flat_map_ext_Forall.
  eapply Forall_impl; [| apply chunks_each; lia].
  cbv beta; intros row Hrow. now apply pad_data_row.
Qed.

Lemma slice_data_drop_row b h r q (d : list A) :
  slice_data [b; h; r + 1; q] [None; None; Some 1%Z] d
  = flat_map (fun y => concat (tl (chunks (r + 1) q y)))
             (chunks (b * h) ((r + 1) * q) d).
Proof.
  rewrite <- flat_map_chunks_chunks.
  replace (r + 1) with (S r) by lia.
  cbn [slice_data sliced_shape numel fold_right slice_begin skipn].
  rewrite !Nat.mul_1_r.
  apply flat_map_ext; intros d0.
  apply flat_map_ext; intros d1.
  rewrite flat_map_concat_map, map_id.
  reflexivity.
Qed.

Lemma length_drop_row r q (p : list A) :
  length p = (r + 1) * q ->
  length (concat (tl (chunks (r + 1) q p))) = q * r.
Proof.
  intros Hp.
  rewrite length_concat_uniform with (k := q).
  - replace (r + 1) with (S r) by lia. simpl.
    rewrite length_chunks. lia.
  - apply Forall_forall. intros c Hc.
    assert (Hall : Forall (fun c => length c = q) (chunks (r + 1) q p))
      by (apply chunks_each; lia).
    rewrite Forall_forall in Hall. apply Hall.
    destruct (chunks (r + 1) q p); simpl in *; auto.
Qed.

Lemma rel_shift_slice_drop_row q r (s : list A) :
  length s = q * r ->
  rel_shift_slice zero q r s
  = concat (tl (chunks (r + 1) q (pad_slice zero q r s))).
Proof.
  intros Hs. unfold rel_shift_slice. cbv zeta.
  apply concat_chunks.
  apply length_drop_row. now apply length_pad_slice.
Qed.

Lemma length_rel_shift_slice q r (s : list A) :
  length s = q * r -> length (rel_shift_slice zero q r s) = q * r.
Proof.
  intros Hs. rewrite rel_shift_slice_drop_row by assumption.
  apply length_drop_row. now apply length_pad_slice.
Qed.

(** On a well-formed 4D tensor the four whole-tensor operations of
    [rel_shift] act on every innermost slice separately. *)
Lemma rel_shift_slices b h q r (inputs : Tensor A) :
  shape inputs = [b; h; q; r] ->
  well_formed inputs ->
  rel_shift zero inputs
  = Some (mkTensor [b; h; q; r]
            (flat_map (rel_shift_slice zero q r)
                      (chunks (b * h) (q * r) (data inputs)))).
Proof.
  intros Hshape Hwf. red in Hwf. rewrite Hshape in Hwf.
  cbn [numel fold_right] in Hwf.
  assert (Hd : length (data inputs) = b * h * q * r) by lia.
  assert (Hblocks : Forall (fun s => length s = q * r)
                           (chunks (b * h) (q * r) (data inputs)))
    by (apply chunks_each; nia).
  unfold rel_shift, tf_pad, tf_reshape, tf_slice.
  rewrite Hshape.
  cbn [length Nat.eqb shape data padded_shape Nat.add].
  rewrite pad_data_last by assumption.
  set (blocks := chunks (b * h) (q * r) (data inputs)) in *.
  assert (Hpadded : Forall (fun p => length p = (r + 1) * q)
                           (map (pad_slice zero q r) blocks)).
  { apply Forall_map. eapply Forall_impl; [| exact Hblocks].
    cbv beta; intros s Hs. now apply length_pad_slice. }
  assert (Hlen : length (flat_map (pad_slice zero q r) blocks)
                 = b * h * ((r + 1) * q)).
  { rewrite flat_map_concat_map.
    rewrite (length_concat_uniform Hpadded).
    unfold blocks. now rewrite length_map, length_chunks. }
  rewrite Hlen.
  replace (numel [b; h; r + 1; q] =? b * h * ((r + 1) * q)) with true
    by (symmetry; apply Nat.eqb_eq; cbn [numel fold_right]; lia).
  cbn [shape data length Nat.leb].
  rewrite slice_data_drop_row.
  rewrite (flat_map_concat_map (pad_slice zero q r) blocks).
  replace (b * h) with (length (map (pad_slice zero q r) blocks))
    by (unfold blocks; now rewrite length_map, length_chunks).
  rewrite (chunks_concat Hpadded).
  rewrite flat_map_concat_map, map_map, <- flat_map_concat_map.
  assert (Hout : flat_map
                   (fun s => concat (tl (chunks (r + 1) q (pad_slice zero q r s))))
                   blocks
                 = flat_map (rel_shift_slice zero q r) blocks).
  { apply flat_map_ext_Forall.
    eapply Forall_impl; [| exact Hblocks].
    cbv beta; intros s Hs. symmetry. now apply rel_shift_slice_drop_row. }
  rewrite Hout.
  assert (Hfinal : length (flat_map (rel_shift_slice zero q r) blocks)
                   = b * h * (q * r)).
  { rewrite flat_map_concat_map.
    rewrite length_concat_uniform with (k := q * r).
    - unfold blocks. now rewrite length_map, length_chunks.
    - apply Forall_map. eapply Forall_impl; [| exact Hblocks].
      cbv beta; intros s Hs. now apply length_rel_shift_slice. }
  rewrite Hfinal.
  replace (numel [b; h; q; r] =? b * h * (q * r)) with true
    by (symmetry; apply Nat.eqb_eq; cbn [numel fold_right]; lia).
  reflexivity.
Qed.

Lemma rel_shift_slice_entry q r (s : list A) i j d :
  length s = q * r -> i < q -> j <= r -> q <= i * (r + 1) + j ->
  nth (i * (r + 1) + j - q) (rel_shift_slice zero q r s) d
  = nth j (zero :: firstn r (skipn (i * r) s)) d.
Proof.
  intros Hs Hi Hj Hq.
  rewrite rel_shift_slice_drop_row by assumption.
  replace (r + 1) with (S r) by lia.
  cbn [chunks tl].
  rewrite concat_chunks_firstn.
  pose proof (length_pad_slice q r s Hs) as Hp.
  rewrite firstn_all2 by (rewrite length_skipn; lia).
  rewrite nth_skipn.
  replace (q + (i * S r + j - q)) with (i * S r + j) by lia.
  unfold pad_slice. rewrite flat_map_concat_map.
  rewrite nth_concat_uniform.
  - rewrite nth_indep with (d' := zero :: [])
      by (rewrite length_map, length_chunks; lia).
    rewrite (map_nth (cons zero)).
    now rewrite nth_chunks by lia.
  - apply Forall_map. eapply Forall_impl; [| apply chunks_each; lia].
    cbv beta; intros c Hc. simpl. now rewrite Hc.
  - lia.
Qed.

Lemma nth_block n k (l : list A) i j d :
  i < n -> j < k ->
  nth j (nth i (chunks n k l) []) d = nth (i * k + j) l d.
Proof.
  intros Hi Hj. rewrite nth_chunks by assumption.
  rewrite nth_firstn.
  apply Nat.ltb_lt in Hj. rewrite Hj.
  apply nth_skipn.
Qed.

(** C1. For every well-formed 4D input of shape
    [[batch, heads, q_len, r_len]], [rel_shift] returns a tensor of the
    same shape in which every innermost slice is the input slice with a
    zero column prepended, read as [r_len + 1] rows of length [q_len],
    without the first of these rows, read back as [q_len] rows of length
    [r_len]; and the slice [[0,1,2],[3,4,5],[6,7,8],[9,10,11]] is mapped
    to [[0,3,4],[5,0,6],[7,8,0],[9,10,11]]. *)
Theorem rel_shift_spec b h q r (inputs : Tensor A) :
  shape inputs = [b; h; q; r] ->
  well_formed inputs ->
  rel_shift zero inputs
  = Some (mkTensor (shape inputs)
            (flat_map (rel_shift_slice zero q r)
                      (chunks (b * h) (q * r) (data inputs))))
  /\ rel_shift 0%Z slice_4x3
     = Some (mkTensor [1; 1; 4; 3]
                      [0; 3; 4; 5; 0; 6; 7; 8; 0; 9; 10; 11]%Z).
Proof.
  intros Hshape Hwf. split; [| reflexivity].
  rewrite (rel_shift_slices Hshape Hwf). now rewrite Hshape.
Qed.

(** C10. For a well-formed input with [q_len >= 1], [rel_shift] leaves
    the last row of every innermost slice unchanged:
    [output[b, h, q_len - 1, c] = input[b, h, q_len - 1, c]]. *)
Theorem rel_shift_last_row b h q r (inputs : Tensor A) (d : A) :
  shape inputs = [b; h; q; r] ->
  well_formed inputs ->
  1 <= q ->
  exists outputs,
    rel_shift zero inputs = Some outputs
    /\ forall bi hi c, bi < b -> hi < h -> c < r ->
         get4 d outputs bi hi (q - 1) c = get4 d inputs bi hi (q - 1) c.
Proof.
  intros Hshape Hwf Hq.
  rewrite (rel_shift_slices Hshape Hwf).
  eexists; split; [reflexivity |].
  intros bi hi c Hbi Hhi Hc.
  unfold get4. cbn [shape data]. rewrite Hshape.
  red in Hwf. rewrite Hshape in Hwf. cbn [numel fold_right] in Hwf.
  set (i := bi * h + hi).
  assert (Hi : i < b * h) by (unfold i; nia).
  assert (Hblocks : Forall (fun s => length s = q * r)
                           (chunks (b * h) (q * r) (data inputs)))
    by (apply chunks_each; nia).
  replace ((i * q + (q - 1)) * r + c)
    with (i * (q * r) + ((q - 1) * r + c)) by nia.
  assert (Hj : (q - 1) * r + c < q * r) by nia.
  rewrite flat_map_concat_map.
  rewrite nth_concat_uniform with (k := q * r); [| | exact Hj].
  2:{ apply Forall_map. eapply Forall_impl; [| exact Hblocks].
      cbv beta; intros s Hs. now apply length_rel_shift_slice. }
  rewrite nth_indep with (d' := rel_shift_slice zero q r [])
    by (rewrite length_map, length_chunks; exact Hi).
  rewrite (map_nth (rel_shift_slice zero q r)).
  set (blk := nth i (chunks (b * h) (q * r) (data inputs)) []).
  assert (Hblk : length blk = q * r).
  { rewrite Forall_forall in Hblocks. apply Hblocks.
    apply nth_In. now rewrite length_chunks. }
  replace ((q - 1) * r + c) with ((q - 1) * (r + 1) + (c + 1) - q) at 1
    by nia.
  rewrite rel_shift_slice_entry by (assumption || nia).
  replace (c + 1) with (S c) by lia. cbn [nth].
  rewrite nth_firstn.
  apply Nat.ltb_lt in Hc. rewrite Hc.
  rewrite nth_skipn.
  unfold blk. now apply nth_block.
Qed.

End RelShiftProofs.

Lemma rel_shift_spec_witness :
  shape slice_4x3 = [1; 1; 4; 3]
  /\ well_formed slice_4x3
  /\ rel_shift 0%Z slice_4x3
     = Some (mkTensor (shape slice_4x3)
               (flat_map (rel_shift_slice 0%Z 4 3)
                         (chunks (1 * 1) (4 * 3) (data slice_4x3)))).
Proof.
  split; [reflexivity | split; [reflexivity |]].
  apply (@rel_shift_spec Z 0%Z 1 1 4 3 slice_4x3); reflexivity.
Defined.

Lemma rel_shift_last_row_witness :
  shape slice_4x3 = [1; 1; 4; 3]
  /\ well_formed slice_4x3
  /\ 1 <= 4
  /\ exists outputs,
       rel_shift 0%Z slice_4x3 = Some outputs
       /\ forall bi hi c, bi < 1 -> hi < 1 -> c < 3 ->
            get4 0%Z outputs bi hi (4 - 1) c
            = get4 0%Z slice_4x3 bi hi (4 - 1) c.
Proof.
  split; [reflexivity | split; [reflexivity | split; [lia |]]].
  apply (@rel_shift_last_row Z 0%Z 1 1 4 3 slice_4x3 0%Z);
    [reflexivity | reflexivity | lia].
Defined.

(** ** get_look_ahead_mask *)

Section ZipWith.
Variables A B C : Type.

Lemma zip_with_app (f : A -> B -> C) l1 l1' l2 l2' :
  length l1 = length l2 ->
  zip_with f (l1 ++ l1') (l2 ++ l2') = zip_with f l1 l2 ++ zip_with f l1' l2'.
Proof.
  revert l2; induction l1; destruct l2; simpl; intros Hl;
    try discriminate; auto.
  f_equal. apply IHl1. congruence.
Qed.

Lemma zip_with_map I (f : A -> B -> C) (g1 : I -> A) (g2 : I -> B) l :
  zip_with f (map g1 l) (map g2 l) = map (fun i => f (g1 i) (g2 i)) l.
Proof. induction l; simpl; congruence. Qed.

Lemma zip_with_flat_map I J (f : A -> B -> C) (g1 : I -> J -> A)
    (g2 : I -> J -> B) (js : list J) l :
  zip_with f (flat_map (fun i => map (g1 i) js) l)
             (flat_map (fun i => map (g2 i) js) l)
  = flat_map (fun i => map (fun j => f (g1 i j) (g2 i j)) js) l.
Proof.
  induction l; simpl; auto.
  rewrite zip_with_app by now rewrite !length_map.
  now rewrite zip_with_map, IHl.
Qed.

End ZipWith.

Lemma chunks_repeat A (x : A) n k :
  chunks n k (repeat x (n * k)) = repeat (repeat x k) n.
Proof.
  induction n; simpl; auto.
  rewrite repeat_app.
  rewrite firstn_app, repeat_length, Nat.sub_diag, firstn_all2
    by (rewrite repeat_length; lia).
  simpl; rewrite app_nil_r.
  rewrite skipn_app, repeat_length, Nat.sub_diag, skipn_all2
    by (rewrite repeat_length; lia).
  simpl. now rewrite IHn.
Qed.

Lemma zip_with_repeat_map A B C I (f : A -> B -> C) x (g : I -> B) l :
  zip_with f (repeat x (length l)) (map g l) = map (fun i => f x (g i)) l.
Proof. induction l; simpl; congruence. Qed.

Lemma nth_map_seq B (f : nat -> B) n i d :
  i < n -> nth i (map f (seq 0 n)) d = f i.
Proof.
  intros Hi.
  rewrite nth_indep with (d' := f 0) by now rewrite length_map, length_seq.
  now rewrite map_nth, seq_nth.
Qed.

Lemma band_part_ones lower upper q :
  tf_band_part 0%Z (mkTensor [q; q] (repeat 1%Z (numel [q; q]))) lower upper
  = Some (mkTensor [q; q]
       (flat_map (fun i => map (fun k => if in_band lower upper i k
                                         then 1%Z else 0%Z) (seq 0 q))
                 (seq 0 q))).
Proof.
  unfold tf_band_part. cbn [shape data numel fold_right].
  do 2 f_equal.
  apply flat_map_ext_Forall, Forall_forall.
  intros i Hi. apply in_seq in Hi.
  apply map_ext_in. intros k Hk. apply in_seq in Hk.
  destruct (in_band lower upper i k); auto.
  rewrite nth_indep with (d' := 1%Z) by (rewrite repeat_length; nia).
  apply nth_repeat.
Qed.

Lemma band_difference i k :
  ((if in_band 0 (-1) i k then 1 else 0)
   - (if in_band 0 0 i k then 1 else 0))%Z = strict_upper i k.
Proof.
  unfold in_band, strict_upper. cbn [Z.ltb Z.compare orb andb].
  destruct (Z.leb_spec (Z.of_nat i - Z.of_nat k) 0);
    destruct (Z.leb_spec (Z.of_nat k - Z.of_nat i) 0);
    destruct (Nat.ltb_spec i k); cbn [andb]; lia.
Qed.

Lemma dims_nonneg a b :
  (0 <= a)%Z -> (0 <= b)%Z -> dims [a; b] = Some [Z.to_nat a; Z.to_nat b].
Proof.
  intros Ha Hb. unfold dims. cbn [forallb map].
  apply Z.leb_le in Ha, Hb. now rewrite Ha, Hb.
Qed.

Lemma get_look_ahead_mask_rows q_seq_len m_seq_len :
  (0 <= q_seq_len)%Z -> (0 <= m_seq_len)%Z ->
  get_look_ahead_mask q_seq_len m_seq_len
  = Some (mkTensor
            [1; 1; Z.to_nat q_seq_len; Z.to_nat m_seq_len + Z.to_nat q_seq_len]
            (concat (look_ahead_rows (Z.to_nat q_seq_len)
                                     (Z.to_nat m_seq_len)))).
Proof.
  intros Hq Hm. unfold get_look_ahead_mask, tf_fill.
  rewrite !dims_nonneg by assumption.
  set (q := Z.to_nat q_seq_len). set (m := Z.to_nat m_seq_len).
  rewrite !band_part_ones.
  unfold tf_binary, tf_concat. cbn [shape data].
  destruct (list_eq_dec Nat.eq_dec [q; q] [q; q]); [| congruence].
  cbn [shape data concat_shape]. rewrite Nat.eqb_refl.
  destruct (list_eq_dec Nat.eq_dec [] []); [| congruence].
  cbn [option_map tf_newaxis shape data concat_data numel fold_right].
  rewrite !Nat.mul_1_r.
  do 2 f_equal.
  rewrite zip_with_flat_map.
  unfold tf_newaxis. cbn [shape data]. do 2 f_equal.
  rewrite chunks_repeat.
  rewrite flat_map_concat_map.
  replace q with (length (map (fun i => map (fun j =>
      ((if in_band 0 (-1) i j then 1 else 0)
       - (if in_band 0 0 i j then 1 else 0))%Z) (seq 0 q)) (seq 0 q))) at 2
    by now rewrite length_map, length_seq.
  rewrite chunks_concat
    by (apply Forall_map, Forall_forall; intros i _;
        now rewrite length_map, length_seq).
  replace q with (length (seq 0 q)) at 1 by apply length_seq.
  rewrite zip_with_repeat_map.
  unfold look_ahead_rows.
  apply map_ext. intros i. f_equal.
  apply map_ext. intros k. apply band_difference.
Qed.

Lemma look_ahead_rows_each q m :
  Forall (fun row => length row = m + q) (look_ahead_rows q m).
Proof.
  apply Forall_map, Forall_forall. intros i _.
  now rewrite length_app, repeat_length, length_map, length_seq.
Qed.

Lemma look_ahead_rows_nth q m i k d :
  i < q -> k < m + q ->
  nth (i * (m + q) + k) (concat (look_ahead_rows q m)) d
  = if k <? m then 0%Z else strict_upper i (k - m).
Proof.
  intros Hi Hk.
  rewrite (nth_concat_uniform _ _ (look_ahead_rows_each q m)) by assumption.
  unfold look_ahead_rows.
  rewrite nth_map_seq by assumption.
  destruct (Nat.ltb_spec k m) as [Hkm | Hkm].
  - rewrite app_nth1 by now rewrite repeat_length.
    rewrite nth_indep with (d' := 0%Z) by now rewrite repeat_length.
    apply nth_repeat.
  - rewrite app_nth2 by (rewrite repeat_length; lia).
    rewrite repeat_length.
    now rewrite nth_map_seq by lia.
Qed.

(** C2. For non-negative [q_seq_len] and [m_seq_len],
    [get_look_ahead_mask] returns a tensor of shape
    [[1, 1, q_seq_len, m_seq_len + q_seq_len]] with values in {0, 1}
    whose leftmost [m_seq_len] columns are 0 and whose rightmost
    [q_seq_len] columns are strictly upper triangular (entry [(i, k)] is
    1 exactly when [k > i]); for [q_seq_len = 2], [m_seq_len = 3] the
    mask is [[0,0,0,0,1],[0,0,0,0,0]]. *)
Theorem look_ahead_mask_spec (q_seq_len m_seq_len : Z) (d : Z) :
  (0 <= q_seq_len)%Z -> (0 <= m_seq_len)%Z ->
  let q := Z.to_nat q_seq_len in
  let m := Z.to_nat m_seq_len in
  (exists mask,
     get_look_ahead_mask q_seq_len m_seq_len = Some mask
     /\ shape mask = [1; 1; q; m + q]
     /\ well_formed mask
     /\ Forall (fun v => v = 0%Z \/ v = 1%Z) (data mask)
     /\ (forall i k, i < q -> k < m -> get4 d mask 0 0 i k = 0%Z)
     /\ (forall i k, i < q -> k < q ->
           get4 d mask 0 0 i (m + k) = if i <? k then 1%Z else 0%Z))
  /\ get_look_ahead_mask 2 3
     = Some (mkTensor [1; 1; 2; 5] [0; 0; 0; 0; 1; 0; 0; 0; 0; 0]%Z).
Proof.
  intros Hq Hm q m. split; [| reflexivity].
  rewrite get_look_ahead_mask_rows by assumption. fold q m.
  eexists; split; [reflexivity |].
  cbn [shape data]. split; [reflexivity |]. split; [| split; [| split]].
  - red. cbn [shape data numel fold_right].
    rewrite (length_concat_uniform (look_ahead_rows_each q m)).
    unfold look_ahead_rows. rewrite length_map, length_seq. lia.
  - apply Forall_concat, Forall_map, Forall_forall. intros i _.
    apply Forall_app; split.
    + apply Forall_forall. intros v Hv. apply repeat_spec in Hv. auto.
    + apply Forall_map, Forall_forall. intros k _.
      unfold strict_upper. destruct (i <? k); auto.
  - intros i k Hi Hk. unfold get4. cbn [shape data].
    replace ((0 * 1 + 0) * q + i) with i by lia.
    rewrite look_ahead_rows_nth by lia.
    apply Nat.ltb_lt in Hk. now rewrite Hk.
  - intros i k Hi Hk. unfold get4. cbn [shape data].
    replace ((0 * 1 + 0) * q + i) with i by lia.
    rewrite look_ahead_rows_nth by lia.
    destruct (Nat.ltb_spec (m + k) m); [lia |].
    now replace (m + k - m) with k by lia.
Qed.

Lemma look_ahead_mask_spec_witness :
  (0 <= 2)%Z /\ (0 <= 3)%Z
  /\ (exists mask,
        get_look_ahead_mask 2 3 = Some mask
        /\ shape mask = [1; 1; Z.to_nat 2; Z.to_nat 3 + Z.to_nat 2]
        /\ well_formed mask
        /\ Forall (fun v => v = 0%Z \/ v = 1%Z) (data mask)
        /\ (forall i k, i < Z.to_nat 2 -> k < Z.to_nat 3 ->
              get4 7%Z mask 0 0 i k = 0%Z)
        /\ (forall i k, i < Z.to_nat 2 -> k < Z.to_nat 2 ->
              get4 7%Z mask 0 0 i (Z.to_nat 3 + k)
              = if i <? k then 1%Z else 0%Z))
  /\ get_look_ahead_mask 2 3
     = Some (mkTensor [1; 1; 2; 5] [0; 0; 0; 0; 1; 0; 0; 0; 0; 0]%Z).
Proof.
  split; [lia | split; [lia |]].
  apply (@look_ahead_mask_spec 2 3 7); lia.
Defined.

(** ** cache_memory *)

Lemma length_zip_with A B C (f : A -> B -> C) l1 l2 :
  length l1 = length l2 -> length (zip_with f l1 l2) = length l1.
Proof.
  revert l2; induction l1; destruct l2; simpl; intros Hl;
    try discriminate; auto.
Qed.

Section CacheMemoryProofs.
Variable A : Type.

Lemma zip_with_app_each (l1 l2 : list (list A)) k1 k2 :
  Forall (fun c => length c = k1) l1 ->
  Forall (fun c => length c = k2) l2 ->
  Forall (fun c => length c = k1 + k2) (zip_with (@app A) l1 l2).
Proof.
  intros H1; revert l2.
  induction H1 as [| c1 l1 Hc1 Hl1 IH]; intros l2 H2; simpl; auto.
  destruct H2 as [| c2 l2 Hc2 Hl2]; constructor; auto.
  rewrite length_app. lia.
Qed.

Lemma concat_time_each b m_len q_len hidden (dm de : list A) :
  length dm = b * (m_len * hidden) ->
  length de = b * (q_len * hidden) ->
  Forall (fun x => length x = (m_len + q_len) * hidden)
         (concat_time b m_len q_len hidden dm de).
Proof.
  intros Hm He. unfold concat_time.
  rewrite Nat.mul_add_distr_r.
  apply zip_with_app_each; apply chunks_each; lia.
Qed.

Lemma length_concat_time b m_len q_len hidden (dm de : list A) :
  length (concat_time b m_len q_len hidden dm de) = b.
Proof.
  unfold concat_time.
  rewrite length_zip_with; rewrite !length_chunks; reflexivity.
Qed.

Lemma concat_skipn_chunks n total k (x : list A) :
  n <= total -> length x = total * k ->
  concat (skipn n (chunks total k x)) = skipn (n * k) x.
Proof.
  intros Hn Hx.
  replace total with (n + (total - n)) at 1 by lia.
  rewrite chunks_add.
  rewrite skipn_app, length_chunks, Nat.sub_diag.
  rewrite skipn_all2 by (rewrite length_chunks; lia).
  cbn [skipn app].
  apply concat_chunks. rewrite length_skipn. nia.
Qed.

Lemma slice_begin_le (z : option Z) n : slice_begin z n <= n.
Proof.
  unfold slice_begin.
  destruct z as [z |]; [destruct (Z.ltb_spec z 0) |]; lia.
Qed.

Lemma cache_memory_slice b m_len q_len hidden (memory embeddings : Tensor A)
    (m_seq_len : Z) :
  shape memory = [b; m_len; hidden] ->
  shape embeddings = [b; q_len; hidden] ->
  well_formed memory -> well_formed embeddings ->
  let begin := slice_begin (Some (- m_seq_len)%Z) (m_len + q_len) in
  cache_memory memory embeddings (Some m_seq_len)
  = Some (mkTensor [b; m_len + q_len - begin; hidden]
            (flat_map (skipn (begin * hidden))
               (concat_time b m_len q_len hidden
                            (data memory) (data embeddings)))).
Proof.
  intros Hsm Hse Hwm Hwe begin.
  red in Hwm, Hwe. rewrite Hsm in Hwm. rewrite Hse in Hwe.
  cbn [numel fold_right] in Hwm, Hwe. rewrite Nat.mul_1_r in Hwm, Hwe.
  unfold cache_memory, tf_concat, tf_slice, tf_stop_gradient.
  rewrite Hsm, Hse. cbn [concat_shape].
  rewrite Nat.eqb_refl.
  destruct (list_eq_dec Nat.eq_dec [hidden] [hidden]); [| congruence].
  cbn [option_map shape data length Nat.leb concat_data sliced_shape
       slice_data numel fold_right].
  rewrite !Nat.mul_1_r.
  change (zip_with _ (chunks b (m_len * hidden) (data memory))
                    (chunks b (q_len * hidden) (data embeddings)))
    with (concat_time b m_len q_len hidden (data memory) (data embeddings)).
  fold begin.
  cbn [slice_begin skipn]. rewrite Nat.sub_0_r.
  pose proof (concat_time_each b m_len q_len hidden _ _ Hwm Hwe) as Heach.
  pose proof (length_concat_time b m_len q_len hidden
                                  (data memory) (data embeddings)) as Hlen.
  set (ct := concat_time b m_len q_len hidden (data memory) (data embeddings))
    in *.
  assert (Hch : chunks b ((m_len + q_len) * hidden) (concat ct) = ct)
    by (rewrite <- Hlen at 1; now apply chunks_concat).
  rewrite Hch.
  do 2 f_equal.
  apply flat_map_ext_Forall.
  eapply Forall_impl; [| exact Heach].
  cbv beta; intros x Hx.
  rewrite flat_map_concat_map, map_id.
  apply concat_skipn_chunks; [apply slice_begin_le | assumption].
Qed.

(** Whenever the slice begins at the first time step, the whole
    concatenation is returned. *)
Lemma cache_memory_full b m_len q_len hidden (memory embeddings : Tensor A)
    (m_seq_len : Z) :
  shape memory = [b; m_len; hidden] ->
  shape embeddings = [b; q_len; hidden] ->
  well_formed memory -> well_formed embeddings ->
  slice_begin (Some (- m_seq_len)%Z) (m_len + q_len) = 0 ->
  exists cat,
    tf_concat memory embeddings 1 = Some cat
    /\ shape cat = [b; m_len + q_len; hidden]
    /\ well_formed cat
    /\ cache_memory memory embeddings (Some m_seq_len) = Some cat.
Proof.
  intros Hsm Hse Hwm Hwe Hbegin.
  rewrite (cache_memory_slice m_seq_len Hsm Hse Hwm Hwe).
  rewrite Hbegin. cbn [Nat.mul skipn]. rewrite Nat.sub_0_r.
  red in Hwm, Hwe. rewrite Hsm in Hwm. rewrite Hse in Hwe.
  cbn [numel fold_right] in Hwm, Hwe. rewrite Nat.mul_1_r in Hwm, Hwe.
  unfold tf_concat. rewrite Hsm, Hse. cbn [concat_shape].
  rewrite Nat.eqb_refl.
  destruct (list_eq_dec Nat.eq_dec [hidden] [hidden]); [| congruence].
  cbn [option_map concat_data numel fold_right]. rewrite !Nat.mul_1_r.
  change (zip_with _ (chunks b (m_len * hidden) (data memory))
                    (chunks b (q_len * hidden) (data embeddings)))
    with (concat_time b m_len q_len hidden (data memory) (data embeddings)).
  eexists; split; [reflexivity |].
  cbn [shape data]. split; [reflexivity |]. split.
  - red. cbn [shape data numel fold_right].
    rewrite (length_concat_uniform
               (concat_time_each b m_len q_len hidden _ _ Hwm Hwe)).
    rewrite length_concat_time. lia.
  - reflexivity.
Qed.

(** For a positive number of steps within the concatenation, the result is
    its last [m_seq_len] time steps. *)
Lemma cache_memory_last_steps b m_len q_len hidden
    (memory embeddings : Tensor A) (m_seq_len : Z) :
  shape memory = [b; m_len; hidden] ->
  shape embeddings = [b; q_len; hidden] ->
  well_formed memory -> well_formed embeddings ->
  (1 <= m_seq_len <= Z.of_nat (m_len + q_len))%Z ->
  cache_memory memory embeddings (Some m_seq_len)
  = Some (mkTensor [b; Z.to_nat m_seq_len; hidden]
            (flat_map (last_steps (Z.to_nat m_seq_len) hidden)
               (concat_time b m_len q_len hidden
                            (data memory) (data embeddings)))).
Proof.
  intros Hsm Hse Hwm Hwe Hm.
  rewrite (cache_memory_slice m_seq_len Hsm Hse Hwm Hwe).
  assert (Hbegin : slice_begin (Some (- m_seq_len)%Z) (m_len + q_len)
                   = m_len + q_len - Z.to_nat m_seq_len).
  { unfold slice_begin. destruct (Z.ltb_spec (- m_seq_len) 0); lia. }
  rewrite Hbegin.
  replace (m_len + q_len - (m_len + q_len - Z.to_nat m_seq_len))
    with (Z.to_nat m_seq_len) by lia.
  do 2 f_equal.
  red in Hwm, Hwe. rewrite Hsm in Hwm. rewrite Hse in Hwe.
  cbn [numel fold_right] in Hwm, Hwe. rewrite Nat.mul_1_r in Hwm, Hwe.
  apply flat_map_ext_Forall.
  eapply Forall_impl;
    [| exact (concat_time_each b m_len q_len hidden _ _ Hwm Hwe)].
  cbv beta; intros x Hx. unfold last_steps. rewrite Hx.
  f_equal. nia.
Qed.

End CacheMemoryProofs.

(** Time-lengths 5 and 2 with [m_seq_len = 4]: the last 4 steps of the
    length-7 concatenation; and the default [m_seq_len], the time-length
    of [memory]. *)
Example cache_memory_5_2_4 :
  cache_memory (mkTensor [1; 5; 1] [1; 2; 3; 4; 5]%Z)
               (mkTensor [1; 2; 1] [6; 7]%Z) (Some 4%Z)
  = Some (mkTensor [1; 4; 1] [4; 5; 6; 7]%Z).
Proof. reflexivity. Qed.

Example cache_memory_5_2_default :
  cache_memory (mkTensor [1; 5; 1] [1; 2; 3; 4; 5]%Z)
               (mkTensor [1; 2; 1] [6; 7]%Z) None
  = Some (mkTensor [1; 5; 1] [3; 4; 5; 6; 7]%Z).
Proof. reflexivity. Qed.

(** C3. With [m_seq_len = 0] and a cached step and a new step at hand,
    [cache_memory] returns both steps (time-length 2), not the last zero
    steps (time-length 0) that its docstring promises. *)
Theorem cache_memory_zero_steps_kept :
  cache_memory memory_1 embeddings_1 (Some 0%Z)
  = Some (mkTensor [1; 2; 1] [1; 2]%Z)
  /\ cache_memory memory_1 embeddings_1 (Some 0%Z)
     <> Some (mkTensor [1; 0; 1] []).
Proof. split; [reflexivity | discriminate]. Qed.

(** C5. When [m_seq_len] exceeds the concatenated time-length,
    [cache_memory] returns the whole time-axis concatenation of [memory]
    and [embeddings] and raises no error. *)
Theorem cache_memory_clips (A : Type) (b m_len q_len hidden : nat)
    (memory embeddings : Tensor A) (m_seq_len : Z) :
  shape memory = [b; m_len; hidden] ->
  shape embeddings = [b; q_len; hidden] ->
  well_formed memory -> well_formed embeddings ->
  (Z.of_nat (m_len + q_len) < m_seq_len)%Z ->
  exists cat,
    tf_concat memory embeddings 1 = Some cat
    /\ shape cat = [b; m_len + q_len; hidden]
    /\ well_formed cat
    /\ cache_memory memory embeddings (Some m_seq_len) = Some cat.
Proof.
  intros Hsm Hse Hwm Hwe Hm.
  apply cache_memory_full; try assumption.
  unfold slice_begin. destruct (Z.ltb_spec (- m_seq_len) 0); lia.
Qed.

Lemma cache_memory_clips_witness :
  shape memory_1 = [1; 1; 1]
  /\ shape embeddings_1 = [1; 1; 1]
  /\ well_formed memory_1 /\ well_formed embeddings_1
  /\ (Z.of_nat (1 + 1) < 5)%Z
  /\ exists cat,
       tf_concat memory_1 embeddings_1 1 = Some cat
       /\ shape cat = [1; 1 + 1; 1]
       /\ well_formed cat
       /\ cache_memory memory_1 embeddings_1 (Some 5%Z) = Some cat.
Proof.
  repeat (split; [first [reflexivity | lia] |]).
  apply (@cache_memory_clips Z 1 1 1 1 memory_1 embeddings_1 5%Z);
    first [reflexivity | lia].
Defined.

(** C9. With [m_seq_len = 0], [cache_memory] returns the whole time-axis
    concatenation of [memory] and [embeddings] (time-length
    [m_len + q_len]): the slice [-0:] starts at index 0. *)
Theorem cache_memory_no_steps_returns_all (A : Type) (b m_len q_len hidden : nat)
    (memory embeddings : Tensor A) :
  shape memory = [b; m_len; hidden] ->
  shape embeddings = [b; q_len; hidden] ->
  well_formed memory -> well_formed embeddings ->
  exists cat,
    tf_concat memory embeddings 1 = Some cat
    /\ shape cat = [b; m_len + q_len; hidden]
    /\ well_formed cat
    /\ cache_memory memory embeddings (Some 0%Z) = Some cat.
Proof.
  intros Hsm Hse Hwm Hwe.
  apply cache_memory_full; try assumption.
  reflexivity.
Qed.

Lemma cache_memory_no_steps_returns_all_witness :
  shape memory_1 = [1; 1; 1]
  /\ shape embeddings_1 = [1; 1; 1]
  /\ well_formed memory_1 /\ well_formed embeddings_1
  /\ exists cat,
       tf_concat memory_1 embeddings_1 1 = Some cat
       /\ shape cat = [1; 1 + 1; 1]
       /\ well_formed cat
       /\ cache_memory memory_1 embeddings_1 (Some 0%Z) = Some cat.
Proof.
  repeat (split; [reflexivity |]).
  apply (@cache_memory_no_steps_returns_all Z 1 1 1 1 memory_1 embeddings_1); reflexivity.
Defined.

(** ** get_positional_encoding *)

Lemma range_values_down (seq_len : Z) :
  (0 <= seq_len)%Z ->
  range_values (seq_len - 1) (-1) (-1)
  = Some (map (fun i => (seq_len - 1 - Z.of_nat i)%Z)
              (seq 0 (Z.to_nat seq_len))).
Proof.
  intros Hn. unfold range_values, range_size.
  cbn [Z.eqb Z.ltb Z.compare andb Z.abs].
  destruct (Z.ltb_spec (seq_len - 1) (-1)); [lia |]. cbn [andb].
  f_equal.
  replace ((Z.abs (-1 - (seq_len - 1)) + 1 - 1) / 1)%Z with seq_len
    by (rewrite Z.div_1_r; lia).
  apply map_ext. intros i. lia.
Qed.

Lemma range_values_evens (hidden_size : Z) :
  (0 <= hidden_size)%Z ->
  range_values 0 hidden_size 2
  = Some (map (fun j => (2 * Z.of_nat j)%Z)
              (seq 0 (Z.to_nat ((hidden_size + 1) / 2)))).
Proof.
  intros Hh. unfold range_values, range_size.
  cbn [Z.eqb Z.ltb Z.compare andb Z.abs].
  destruct (Z.ltb_spec hidden_size 0); [lia |]. cbn [andb].
  f_equal.
  replace (Z.abs (hidden_size - 0) + 2 - 1)%Z with (hidden_size + 1)%Z by lia.
  apply map_ext. intros j. lia.
Qed.

Section PositionalEncodingProofs.
Context {F : Type} `{Scalar F}.

Lemma get_positional_encoding_rows seq_len hidden_size :
  (0 <= seq_len)%Z -> (0 <= hidden_size)%Z ->
  let half := Z.to_nat ((hidden_size + 1) / 2) in
  get_positional_encoding seq_len hidden_size
  = Some (mkTensor [Z.to_nat seq_len; half + half]
            (concat (map (encoding_row seq_len hidden_size half)
                         (seq 0 (Z.to_nat seq_len))))).
Proof.
  intros Hn Hh half.
  unfold get_positional_encoding, tf_range.
  rewrite range_values_down, range_values_evens by assumption.
  fold half.
  rewrite !length_map, !length_seq.
  unfold tf_einsum_outer, tmap. cbn [shape data].
  unfold tf_concat. cbn [shape data concat_shape].
  rewrite Nat.eqb_refl.
  destruct (list_eq_dec Nat.eq_dec [] []); [| congruence].
  cbn [option_map concat_data numel fold_right].
  rewrite !Nat.mul_1_r.
  do 2 f_equal.
  set (n := Z.to_nat seq_len).
  set (angles := fun i => map (angle seq_len hidden_size i) (seq 0 half)).
  assert (Hangles :
    flat_map
      (fun x : F =>
         map (fmul x)
           (map (fdiv (of_Z 1))
              (map (fpow (of_Z 10000))
                 (map (fun x0 : F => fdiv x0 (of_Z hidden_size))
                    (map of_Z
                       (map (fun j : nat => (2 * Z.of_nat j)%Z)
                          (seq 0 half)))))))
      (map of_Z (map (fun i : nat => (seq_len - 1 - Z.of_nat i)%Z) (seq 0 n)))
    = concat (map angles (seq 0 n))).
  { rewrite flat_map_concat_map, !map_map. f_equal.
    apply map_ext. intros i. now rewrite !map_map. }
  rewrite Hangles.
  assert (Hchunks : forall f : F -> F,
    chunks n half (map f (concat (map angles (seq 0 n))))
    = map (fun i => map f (angles i)) (seq 0 n)).
  { intros f. rewrite concat_map, map_map.
    replace n with (length (map (fun i => map f (angles i)) (seq 0 n))) at 1
      by now rewrite length_map, length_seq.
    apply chunks_concat.
    apply Forall_map, Forall_forall. intros i _.
    unfold angles. now rewrite !length_map, length_seq. }
  rewrite !Hchunks, zip_with_map. f_equal.
  apply map_ext. intros i.
  unfold encoding_row, angles. now rewrite !map_map.
Qed.

Lemma encoding_row_each seq_len hidden_size half n :
  Forall (fun row => length row = half + half)
         (map (encoding_row seq_len hidden_size half) (seq 0 n)).
Proof.
  apply Forall_map, Forall_forall. intros i _.
  unfold encoding_row.
  now rewrite length_app, !length_map, length_seq.
Qed.

Lemma half_even hidden_size :
  (0 < hidden_size)%Z -> (hidden_size mod 2 = 0)%Z ->
  Z.to_nat ((hidden_size + 1) / 2) = Z.to_nat (hidden_size / 2)
  /\ Z.to_nat (hidden_size / 2) + Z.to_nat (hidden_size / 2)
     = Z.to_nat hidden_size.
Proof.
  intros Hpos Heven.
  pose proof (Z.div_mod hidden_size 2 ltac:(lia)) as Hdm.
  rewrite Heven in Hdm.
  replace ((hidden_size + 1) / 2)%Z with (hidden_size / 2)%Z; [lia |].
  apply Z.div_unique with (r := 1%Z); lia.
Qed.

(** C4. For positive [seq_len] and positive even [hidden_size],
    [get_positional_encoding] returns a matrix of shape
    [[seq_len, hidden_size]] whose row [i] is
    [sin(angle[i, 0..half])] followed by [cos(angle[i, 0..half])], with
    [half = hidden_size / 2], [angle[i, j] = distances[i] * inv_freq[j]],
    [distances[i] = seq_len - 1 - i] and
    [inv_freq[j] = 1 / 10000^(2j / hidden_size)]. *)
Theorem positional_encoding_spec (seq_len hidden_size : Z) :
  (0 < seq_len)%Z -> (0 < hidden_size)%Z -> (hidden_size mod 2 = 0)%Z ->
  get_positional_encoding seq_len hidden_size
  = Some (mkTensor [Z.to_nat seq_len; Z.to_nat hidden_size]
            (concat (positional_encoding_rows seq_len hidden_size))).
Proof.
  intros Hn Hh Heven.
  rewrite get_positional_encoding_rows by lia.
  destruct (half_even Hh Heven) as [Hhalf Hsum].
  rewrite Hhalf, Hsum. reflexivity.
Qed.

(** C6, as the code has it. For positive odd [hidden_size] and
    non-negative [seq_len] the sine and cosine halves both have width
    [(hidden_size + 1) / 2]; the concatenation succeeds and the result
    has shape [[seq_len, hidden_size + 1]]. *)
Theorem positional_encoding_odd (seq_len hidden_size : Z) :
  (0 <= seq_len)%Z -> (0 < hidden_size)%Z -> (hidden_size mod 2 = 1)%Z ->
  let half := Z.to_nat ((hidden_size + 1) / 2) in
  get_positional_encoding seq_len hidden_size
  = Some (mkTensor [Z.to_nat seq_len; Z.to_nat (hidden_size + 1)]
            (concat (map (encoding_row seq_len hidden_size half)
                         (seq 0 (Z.to_nat seq_len))))).
Proof.
  intros Hn Hh Hodd half.
  rewrite get_positional_encoding_rows by lia. fold half.
  replace (half + half) with (Z.to_nat (hidden_size + 1)); [reflexivity |].
  pose proof (Z.div_mod hidden_size 2 ltac:(lia)) as Hdm.
  rewrite Hodd in Hdm.
  assert ((hidden_size + 1) / 2 = hidden_size / 2 + 1)%Z
    by (symmetry; apply Z.div_unique with (r := 0%Z); lia).
  unfold half. lia.
Qed.

(** C7. For positive [seq_len] and positive even [hidden_size], in row
    [seq_len - 1] of the encoding (distance 0) every entry of the sine
    half is 0 and every entry of the cosine half is 1, in any arithmetic
    where [0 * x = 0], [sin 0 = 0] and [cos 0 = 1]. *)
Theorem positional_encoding_distance_zero (seq_len hidden_size : Z) (d : F) :
  (forall x, fmul (of_Z 0) x = of_Z 0) ->
  fsin (of_Z 0) = of_Z 0 ->
  fcos (of_Z 0) = of_Z 1 ->
  (0 < seq_len)%Z -> (0 < hidden_size)%Z -> (hidden_size mod 2 = 0)%Z ->
  exists pe,
    get_positional_encoding seq_len hidden_size = Some pe
    /\ forall j, j < Z.to_nat (hidden_size / 2) ->
         get2 d pe (Z.to_nat seq_len - 1) j = of_Z 0
         /\ get2 d pe (Z.to_nat seq_len - 1) (Z.to_nat (hidden_size / 2) + j)
            = of_Z 1.
Proof.
  intros Hmul Hsin Hcos Hn Hh Heven.
  rewrite get_positional_encoding_rows by lia.
  destruct (half_even Hh Heven) as [Hhalf Hsum]. rewrite Hhalf.
  set (half := Z.to_nat (hidden_size / 2)) in *.
  set (n := Z.to_nat seq_len).
  eexists; split; [reflexivity |].
  intros j Hj. unfold get2. cbn [shape data].
  assert (Hrow : forall c, c < half + half ->
            nth ((n - 1) * (half + half) + c)
                (concat (map (encoding_row seq_len hidden_size half)
                             (seq 0 n))) d
            = nth c (encoding_row seq_len hidden_size half (n - 1)) d).
  { intros c Hc.
    rewrite (nth_concat_uniform _ _
               (encoding_row_each seq_len hidden_size half n)) by assumption.
    now rewrite nth_map_seq by lia. }
  assert (Hangle : forall k, angle seq_len hidden_size (n - 1) k = of_Z 0).
  { intros k. unfold angle.
    replace (seq_len - 1 - Z.of_nat (n - 1))%Z with 0%Z by lia.
    apply Hmul. }
  rewrite !Hrow by lia. unfold encoding_row. split.
  - rewrite app_nth1 by now rewrite length_map, length_seq.
    rewrite nth_map_seq by assumption. now rewrite Hangle.
  - rewrite app_nth2 by (rewrite length_map, length_seq; lia).
    rewrite length_map, length_seq.
    replace (half + j - half) with j by lia.
    rewrite nth_map_seq by assumption. now rewrite Hangle.
Qed.

End PositionalEncodingProofs.


Lemma positional_encoding_spec_witness :
  (0 < 2)%Z /\ (0 < 4)%Z /\ (4 mod 2 = 0)%Z
  /\ get_positional_encoding (F := R) 2 4
     = Some (mkTensor [Z.to_nat 2; Z.to_nat 4]
               (concat (positional_encoding_rows 2 4))).
Proof.
  split; [lia | split; [lia | split; [reflexivity |]]].
  apply (@positional_encoding_spec R R_Scalar 2 4); [lia | lia | reflexivity].
Defined.

(** C6, counterexample. With [hidden_size = 3] the call does not fail: it
    returns a matrix of four columns. *)
Lemma odd_hidden_size_no_error :
  get_positional_encoding (F := R) 2 3 <> None
  /\ option_map (@shape R) (get_positional_encoding 2 3) = Some [2; 4].
Proof. split; [discriminate | reflexivity]. Qed.

Lemma positional_encoding_odd_witness :
  (0 <= 2)%Z /\ (0 < 3)%Z /\ (3 mod 2 = 1)%Z
  /\ get_positional_encoding (F := R) 2 3
     = Some (mkTensor [Z.to_nat 2; Z.to_nat (3 + 1)]
               (concat (map (encoding_row 2 3 (Z.to_nat ((3 + 1) / 2)))
                            (seq 0 (Z.to_nat 2))))).
Proof.
  split; [lia | split; [lia | split; [reflexivity |]]].
  apply (@positional_encoding_odd R R_Scalar 2 3); [lia | lia | reflexivity].
Defined.

Lemma positional_encoding_distance_zero_witness :
  (forall x : R, fmul (of_Z 0) x = of_Z 0)
  /\ fsin (of_Z 0) = (of_Z 0 : R)
  /\ fcos (of_Z 0) = (of_Z 1 : R)
  /\ (0 < 2)%Z /\ (0 < 4)%Z /\ (4 mod 2 = 0)%Z
  /\ exists pe : Tensor R,
       get_positional_encoding 2 4 = Some pe
       /\ forall j, j < Z.to_nat (4 / 2) ->
            get2 0%R pe (Z.to_nat 2 - 1) j = of_Z 0
            /\ get2 0%R pe (Z.to_nat 2 - 1) (Z.to_nat (4 / 2) + j) = of_Z 1.
Proof.
  split; [exact Rmult_0_l |].
  split; [exact sin_0 |].
  split; [exact cos_0 |].
  split; [lia | split; [lia | split; [reflexivity |]]].
  apply (@positional_encoding_distance_zero R R_Scalar 2 4 0%R);
    [exact Rmult_0_l | exact sin_0 | exact cos_0 | lia | lia | reflexivity].
Defined.

(** * Further properties of the four functions *)

(** ** rel_shift, further *)

Section RelShiftEntries.
Variable A : Type.
Variable zero : A.

(** Entry [(io, jo)] of a shifted slice is entry [(i, j)] of the slice
    with its zero column, whenever the two flat positions are [q]
    apart. *)
Lemma rel_shift_get4 b h q r (inputs : Tensor A) (d : A) bi hi io jo i j :
  shape inputs = [b; h; q; r] ->
  well_formed inputs ->
  bi < b -> hi < h -> io < q -> jo < r -> i < q -> j <= r ->
  io * r + jo + q = i * (r + 1) + j ->
  get4 d (mkTensor [b; h; q; r]
            (flat_map (rel_shift_slice zero q r)
                      (chunks (b * h) (q * r) (data inputs))))
       bi hi io jo
  = match j with
    | O => zero
    | S c => get4 d inputs bi hi i c
    end.
Proof.
  intros Hshape Hwf Hbi Hhi Hio Hjo Hi Hj Hpos.
  unfold get4. cbn [shape data]. rewrite Hshape.
  red in Hwf. rewrite Hshape in Hwf. cbn [numel fold_right] in Hwf.
  set (k := bi * h + hi).
  assert (Hk : k < b * h) by (unfold k; nia).
  assert (Hblocks : Forall (fun s => length s = q * r)
                           (chunks (b * h) (q * r) (data inputs)))
    by (apply chunks_each; nia).
  replace ((k * q + io) * r + jo) with (k * (q * r) + (io * r + jo)) by nia.
  assert (Hin : io * r + jo < q * r) by nia.
  rewrite flat_map_concat_map.
  rewrite nth_concat_uniform with (k := q * r); [| | exact Hin].
  2:{ apply Forall_map. eapply Forall_impl; [| exact Hblocks].
      cbv beta; intros s Hs. now apply length_rel_shift_slice. }
  rewrite nth_indep with (d' := rel_shift_slice zero q r [])
    by (rewrite length_map, length_chunks; exact Hk).
  rewrite (map_nth (rel_shift_slice zero q r)).
  set (blk := nth k (chunks (b * h) (q * r) (data inputs)) []).
  assert (Hblk : length blk = q * r).
  { rewrite Forall_forall in Hblocks. apply Hblocks.
    apply nth_In. now rewrite length_chunks. }
  replace (io * r + jo) with (i * (r + 1) + j - q) by lia.
  rewrite rel_shift_slice_entry by (assumption || lia).
  destruct j as [| c]; [reflexivity |]. cbn [nth].
  rewrite nth_firstn.
  assert (Hc : (c <? r) = true) by (apply Nat.ltb_lt; lia). rewrite Hc.
  rewrite nth_skipn.
  replace ((k * q + i) * r + c) with (k * (q * r) + (i * r + c)) by nia.
  unfold blk. apply nth_block; [assumption | nia].
Qed.

(** X1. Every entry of the result of [rel_shift] in closed form: with
    [p = i * r_len + j + q_len], entry [(i, j)] of a slice is 0 when
    [p mod (r_len + 1) = 0] and is otherwise entry
    [(p / (r_len + 1), p mod (r_len + 1) - 1)] of the input slice. *)
Theorem rel_shift_entries b h q r (inputs : Tensor A) (d : A) :
  shape inputs = [b; h; q; r] ->
  well_formed inputs ->
  exists outputs,
    rel_shift zero inputs = Some outputs
    /\ forall bi hi i j, bi < b -> hi < h -> i < q -> j < r ->
         let p := i * r + j + q in
         get4 d outputs bi hi i j
         = if p mod (r + 1) =? 0 then zero
           else get4 d inputs bi hi (p / (r + 1)) (p mod (r + 1) - 1).
Proof.
  intros Hshape Hwf.
  rewrite (rel_shift_slices zero Hshape Hwf).
  eexists; split; [reflexivity |].
  intros bi hi i j Hbi Hhi Hi Hj p.
  pose proof (Nat.div_mod_eq p (r + 1)) as Hp.
  pose proof (Nat.mod_upper_bound p (r + 1) ltac:(lia)) as Hmod.
  assert (Hdiv : p / (r + 1) < q)
    by (apply Nat.Div0.div_lt_upper_bound; unfold p; nia).
  rewrite (@rel_shift_get4 b h q r inputs d bi hi i j
             (p / (r + 1)) (p mod (r + 1)))
    by (assumption || lia).
  destruct (p mod (r + 1)) as [| c]; cbn [Nat.eqb]; [reflexivity |].
  now replace (S c - 1) with c by lia.
Qed.

(** X2. [rel_shift] shifts row [i] of every slice left by
    [q_len - 1 - i]: [output[b, h, i, j] = input[b, h, i, j + (q_len - 1 - i)]]
    for every column that stays inside the row. *)
Theorem rel_shift_shifts_left b h q r (inputs : Tensor A) (d : A) :
  shape inputs = [b; h; q; r] ->
  well_formed inputs ->
  exists outputs,
    rel_shift zero inputs = Some outputs
    /\ forall bi hi i j, bi < b -> hi < h -> i < q ->
         j + (q - 1 - i) < r ->
         get4 d outputs bi hi i j
         = get4 d inputs bi hi i (j + (q - 1 - i)).
Proof.
  intros Hshape Hwf.
  rewrite (rel_shift_slices zero Hshape Hwf).
  eexists; split; [reflexivity |].
  intros bi hi i j Hbi Hhi Hi Hj.
  rewrite (@rel_shift_get4 b h q r inputs d bi hi i j i
             (S (j + (q - 1 - i))))
    by (assumption || lia).
  reflexivity.
Qed.

(** X3. In every row but the last, the column that follows the shifted
    entries, [r_len - (q_len - 1 - i)], holds the padding zero. *)
Theorem rel_shift_zero_entry b h q r (inputs : Tensor A) (d : A) :
  shape inputs = [b; h; q; r] ->
  well_formed inputs ->
  exists outputs,
    rel_shift zero inputs = Some outputs
    /\ forall bi hi i, bi < b -> hi < h -> i + 1 < q -> q - 1 - i <= r ->
         get4 d outputs bi hi i (r - (q - 1 - i)) = zero.
Proof.
  intros Hshape Hwf.
  rewrite (rel_shift_slices zero Hshape Hwf).
  eexists; split; [reflexivity |].
  intros bi hi i Hbi Hhi Hi Hr.
  rewrite (@rel_shift_get4 b h q r inputs d bi hi i (r - (q - 1 - i))
             (i + 1) 0)
    by (assumption || lia).
  reflexivity.
Qed.

(** X4. On slices of a single row ([q_len = 1]) [rel_shift] is the
    identity. *)
Theorem rel_shift_single_row b h r (inputs : Tensor A) :
  shape inputs = [b; h; 1; r] ->
  well_formed inputs ->
  rel_shift zero inputs = Some inputs.
Proof.
  intros Hshape Hwf.
  rewrite (rel_shift_slices zero Hshape Hwf).
  red in Hwf. rewrite Hshape in Hwf. cbn [numel fold_right] in Hwf.
  destruct inputs as [sh dt]. cbn [shape data] in *. subst sh.
  do 2 f_equal.
  rewrite <- (concat_chunks (b * h) (1 * r) dt) at 2 by lia.
  rewrite flat_map_concat_map. f_equal.
  rewrite <- map_id. apply map_ext_in.
  intros s Hs.
  assert (Hlen : length s = 1 * r).
  { pose proof (chunks_each (b * h) (1 * r) dt ltac:(lia)) as Hall.
    rewrite Forall_forall in Hall. now apply Hall. }
  rewrite rel_shift_slice_drop_row by assumption.
  unfold pad_slice. cbn [chunks flat_map]. rewrite app_nil_r.
  rewrite firstn_all2 by lia.
  replace (r + 1) with (S r) by lia. cbn [chunks firstn skipn tl].
  apply concat_chunks. lia.
Qed.

End RelShiftEntries.


Lemma rel_shift_entries_witness :
  shape slice_4x3 = [1; 1; 4; 3]
  /\ well_formed slice_4x3
  /\ exists outputs,
       rel_shift 0%Z slice_4x3 = Some outputs
       /\ forall bi hi i j, bi < 1 -> hi < 1 -> i < 4 -> j < 3 ->
            let p := i * 3 + j + 4 in
            get4 0%Z outputs bi hi i j
            = if p mod (3 + 1) =? 0 then 0%Z
              else get4 0%Z slice_4x3 bi hi (p / (3 + 1)) (p mod (3 + 1) - 1).
Proof.
  split; [reflexivity | split; [reflexivity |]].
  apply (@rel_shift_entries Z 0%Z 1 1 4 3 slice_4x3 0%Z); reflexivity.
Defined.

Lemma rel_shift_shifts_left_witness :
  shape slice_4x3 = [1; 1; 4; 3]
  /\ well_formed slice_4x3
  /\ exists outputs,
       rel_shift 0%Z slice_4x3 = Some outputs
       /\ forall bi hi i j, bi < 1 -> hi < 1 -> i < 4 ->
            j + (4 - 1 - i) < 3 ->
            get4 0%Z outputs bi hi i j
            = get4 0%Z slice_4x3 bi hi i (j + (4 - 1 - i)).
Proof.
  split; [reflexivity | split; [reflexivity |]].
  apply (@rel_shift_shifts_left Z 0%Z 1 1 4 3 slice_4x3 0%Z); reflexivity.
Defined.

Lemma rel_shift_zero_entry_witness :
  shape slice_4x3 = [1; 1; 4; 3]
  /\ well_formed slice_4x3
  /\ exists outputs,
       rel_shift 0%Z slice_4x3 = Some outputs
       /\ forall bi hi i, bi < 1 -> hi < 1 -> i + 1 < 4 -> 4 - 1 - i <= 3 ->
            get4 7%Z outputs bi hi i (3 - (4 - 1 - i)) = 0%Z.
Proof.
  split; [reflexivity | split; [reflexivity |]].
  apply (@rel_shift_zero_entry Z 0%Z 1 1 4 3 slice_4x3 7%Z); reflexivity.
Defined.

Lemma rel_shift_single_row_witness :
  shape (mkTensor [1; 2; 1; 3] [1; 2; 3; 4; 5; 6]%Z) = [1; 2; 1; 3]
  /\ well_formed (mkTensor [1; 2; 1; 3] [1; 2; 3; 4; 5; 6]%Z)
  /\ rel_shift 0%Z (mkTensor [1; 2; 1; 3] [1; 2; 3; 4; 5; 6]%Z)
     = Some (mkTensor [1; 2; 1; 3] [1; 2; 3; 4; 5; 6]%Z).
Proof.
  split; [reflexivity | split; [reflexivity |]].
  apply (@rel_shift_single_row Z 0%Z 1 2 3); reflexivity.
Defined.

(** ** get_look_ahead_mask, further *)

(** X6. [get_look_ahead_mask] fails exactly when one of the two lengths
    is negative. *)
Theorem look_ahead_mask_rejects (q_seq_len m_seq_len : Z) :
  get_look_ahead_mask q_seq_len m_seq_len = None
  <-> (q_seq_len < 0 \/ m_seq_len < 0)%Z.
Proof.
  split.
  - intros Hnone.
    destruct (Z.lt_ge_cases q_seq_len 0) as [Hq | Hq]; [now left |].
    destruct (Z.lt_ge_cases m_seq_len 0) as [Hm | Hm]; [now right |].
    rewrite get_look_ahead_mask_rows in Hnone by assumption. discriminate.
  - intros Hneg. unfold get_look_ahead_mask, tf_fill.
    destruct (Z.lt_ge_cases q_seq_len 0) as [Hq | Hq].
    + unfold dims. cbn [forallb].
      destruct (Z.leb_spec 0 q_seq_len); [lia | reflexivity].
    + assert (Hm : (m_seq_len < 0)%Z) by lia.
      rewrite dims_nonneg by assumption.
      rewrite !band_part_ones.
      unfold dims. cbn [forallb].
      destruct (Z.leb_spec 0 m_seq_len); [lia |].
      now rewrite andb_false_r.
Qed.

Lemma count_zeros_strict_upper i s n :
  count_occ Z.eq_dec (map (strict_upper i) (seq s n)) 0%Z
  = Nat.min (s + n) (i + 1) - Nat.min s (i + 1).
Proof.
  revert s; induction n; intros s; cbn [seq map count_occ].
  - rewrite Nat.add_0_r. lia.
  - rewrite IHn. unfold strict_upper.
    destruct (Nat.ltb_spec i s); destruct (Z.eq_dec _ 0); lia.
Qed.

(** X7. Row [i] of the look-ahead mask has exactly [m_seq_len + i + 1]
    zeros: query [i] may attend to the whole memory and to the queries up
    to itself. *)
Theorem look_ahead_mask_row_zeros (q_seq_len m_seq_len : Z) :
  (0 <= q_seq_len)%Z -> (0 <= m_seq_len)%Z ->
  let q := Z.to_nat q_seq_len in
  let m := Z.to_nat m_seq_len in
  exists mask,
    get_look_ahead_mask q_seq_len m_seq_len = Some mask
    /\ forall i, i < q ->
         count_occ Z.eq_dec
           (firstn (m + q) (skipn (i * (m + q)) (data mask))) 0%Z
         = m + i + 1.
Proof.
  intros Hq Hm q m.
  rewrite get_look_ahead_mask_rows by assumption. fold q m.
  eexists; split; [reflexivity |]. cbn [data].
  intros i Hi.
  rewrite <- (nth_chunks (n := q)) by assumption.
  replace q with (length (look_ahead_rows q m)) at 1
    by (unfold look_ahead_rows; now rewrite length_map, length_seq).
  rewrite (chunks_concat (look_ahead_rows_each q m)).
  unfold look_ahead_rows. rewrite nth_map_seq by assumption.
  rewrite count_occ_app, count_occ_repeat_eq by reflexivity.
  rewrite count_zeros_strict_upper. lia.
Qed.

(** X5. [rel_shift] and [get_look_ahead_mask] agree: on scores of shape
    [[b, h, q, m + q]], every position the mask leaves open (mask entry 0)
    holds, after [rel_shift], an entry of the same row of the input,
    [input[b, h, i, j + (q - 1 - i)]], never one wrapped in from another
    row. *)
Theorem rel_shift_unmasked_entries (A : Type) (zero d : A) (dm : Z)
    (b h : nat) (q_seq_len m_seq_len : Z) (inputs : Tensor A) :
  (0 <= q_seq_len)%Z -> (0 <= m_seq_len)%Z ->
  let q := Z.to_nat q_seq_len in
  let m := Z.to_nat m_seq_len in
  shape inputs = [b; h; q; m + q] ->
  well_formed inputs ->
  exists outputs mask,
    rel_shift zero inputs = Some outputs
    /\ get_look_ahead_mask q_seq_len m_seq_len = Some mask
    /\ forall bi hi i j, bi < b -> hi < h -> i < q -> j < m + q ->
         get4 dm mask 0 0 i j = 0%Z ->
         get4 d outputs bi hi i j = get4 d inputs bi hi i (j + (q - 1 - i)).
Proof.
  intros Hq Hm q m Hshape Hwf.
  rewrite (rel_shift_slices zero Hshape Hwf).
  rewrite get_look_ahead_mask_rows by assumption. fold q m.
  do 2 eexists; split; [reflexivity | split; [reflexivity |]].
  intros bi hi i j Hbi Hhi Hi Hj Hmask.
  unfold get4 in Hmask. cbn [shape data] in Hmask.
  replace ((0 * 1 + 0) * q + i) with i in Hmask by lia.
  rewrite look_ahead_rows_nth in Hmask by assumption.
  assert (Hown : j + (q - 1 - i) < m + q).
  { destruct (Nat.ltb_spec j m); [lia |].
    unfold strict_upper in Hmask.
    destruct (Nat.ltb_spec i (j - m)); [discriminate | lia]. }
  rewrite (@rel_shift_get4 A zero b h q (m + q) inputs d bi hi i j i
             (S (j + (q - 1 - i))))
    by (assumption || lia).
  reflexivity.
Qed.


Lemma look_ahead_mask_row_zeros_witness :
  (0 <= 2)%Z /\ (0 <= 3)%Z
  /\ exists mask,
       get_look_ahead_mask 2 3 = Some mask
       /\ forall i, i < Z.to_nat 2 ->
            count_occ Z.eq_dec
              (firstn (Z.to_nat 3 + Z.to_nat 2)
                 (skipn (i * (Z.to_nat 3 + Z.to_nat 2)) (data mask))) 0%Z
            = Z.to_nat 3 + i + 1.
Proof.
  split; [lia | split; [lia |]].
  apply (@look_ahead_mask_row_zeros 2 3); lia.
Defined.

Lemma rel_shift_unmasked_entries_witness :
  (0 <= 2)%Z /\ (0 <= 1)%Z
  /\ shape (mkTensor [1; 1; 2; 3] [1; 2; 3; 4; 5; 6]%Z)
     = [1; 1; Z.to_nat 2; Z.to_nat 1 + Z.to_nat 2]
  /\ well_formed (mkTensor [1; 1; 2; 3] [1; 2; 3; 4; 5; 6]%Z)
  /\ exists outputs mask,
       rel_shift 0%Z (mkTensor [1; 1; 2; 3] [1; 2; 3; 4; 5; 6]%Z)
       = Some outputs
       /\ get_look_ahead_mask 2 1 = Some mask
       /\ forall bi hi i j, bi < 1 -> hi < 1 -> i < Z.to_nat 2 ->
            j < Z.to_nat 1 + Z.to_nat 2 ->
            get4 7%Z mask 0 0 i j = 0%Z ->
            get4 0%Z outputs bi hi i j
            = get4 0%Z (mkTensor [1; 1; 2; 3] [1; 2; 3; 4; 5; 6]%Z)
                   bi hi i (j + (Z.to_nat 2 - 1 - i)).
Proof.
  split; [lia | split; [lia | split; [reflexivity | split; [reflexivity |]]]].
  apply (@rel_shift_unmasked_entries Z 0%Z 0%Z 7%Z 1 1 2 1
           (mkTensor [1; 1; 2; 3] [1; 2; 3; 4; 5; 6]%Z));
    first [lia | reflexivity].
Defined.

(** ** cache_memory, further *)

Section CacheMemoryWindow.
Variable A : Type.

Lemma length_last_steps n hidden (x : list A) :
  n * hidden <= length x -> length (last_steps n hidden x) = n * hidden.
Proof. intros Hx. unfold last_steps. rewrite length_skipn. lia. Qed.

Lemma last_steps_app_new n hidden (a e : list A) :
  n * hidden <= length e ->
  last_steps n hidden (a ++ e) = last_steps n hidden e.
Proof.
  intros He. unfold last_steps.
  rewrite length_app, skipn_app.
  rewrite skipn_all2 by lia. cbn [app].
  f_equal. lia.
Qed.

Lemma last_steps_twice n hidden (x c : list A) :
  n * hidden <= length x ->
  last_steps n hidden (last_steps n hidden x ++ c)
  = last_steps n hidden (x ++ c).
Proof.
  intros Hx.
  rewrite <- (firstn_skipn (length x - n * hidden) x) at 2.
  rewrite <- app_assoc.
  fold (last_steps n hidden x).
  symmetry. apply last_steps_app_new.
  rewrite length_app, length_last_steps by assumption. lia.
Qed.

Lemma zip_app_last_new n hidden (ms es : list (list A)) :
  length ms = length es ->
  Forall (fun e => n * hidden <= length e) es ->
  map (last_steps n hidden) (zip_with (@app A) ms es)
  = map (last_steps n hidden) es.
Proof.
  intros Hlen Hes. revert ms Hlen.
  induction Hes as [| e es He Hes IH]; intros [| a ms] Hlen;
    try discriminate; cbn [zip_with map]; auto.
  rewrite last_steps_app_new by assumption.
  f_equal. apply IH. simpl in Hlen. congruence.
Qed.

Lemma zip_app_last_twice n hidden (ms e1 e2 : list (list A)) k1 k2 :
  Forall (fun a => length a = k1) ms ->
  Forall (fun a => length a = k2) e1 ->
  n * hidden <= k1 + k2 ->
  map (last_steps n hidden)
      (zip_with (@app A)
         (map (last_steps n hidden) (zip_with (@app A) ms e1)) e2)
  = map (last_steps n hidden)
        (zip_with (@app A) ms (zip_with (@app A) e1 e2)).
Proof.
  intros Hms; revert e1 e2.
  induction Hms as [| a ms Ha Hms IH]; intros e1 e2 He1 Hn;
    cbn [zip_with map]; auto.
  destruct He1 as [| b e1 Hb He1]; cbn [zip_with map]; auto.
  destruct e2 as [| c e2]; cbn [zip_with map]; auto.
  rewrite last_steps_twice by (rewrite length_app; lia).
  rewrite <- app_assoc.
  f_equal. now apply IH.
Qed.

Lemma zip_app_empty b (l : list A) (es : list (list A)) :
  length es = b -> zip_with (@app A) (chunks b 0 l) es = es.
Proof.
  revert l es; induction b; intros l [| e es] Hes; try discriminate; auto.
  cbn [chunks firstn skipn zip_with app]. f_equal. apply IHb.
  simpl in Hes. congruence.
Qed.

Lemma well_formed_window b n hidden (xs : list (list A)) k :
  length xs = b ->
  Forall (fun x => length x = k) xs ->
  n * hidden <= k ->
  length (flat_map (last_steps n hidden) xs) = b * (n * (hidden * 1)).
Proof.
  intros Hb Hxs Hn.
  rewrite flat_map_concat_map.
  rewrite length_concat_uniform with (k := n * hidden).
  - rewrite length_map. nia.
  - apply Forall_map. eapply Forall_impl; [| exact Hxs].
    cbv beta; intros x Hx. apply length_last_steps. lia.
Qed.

(** X8. For [1 <= m_seq_len <= m_len + q_len], [cache_memory] returns a
    well-formed tensor of shape [[batch, m_seq_len, hidden]] holding, for
    every batch element, the last [m_seq_len] time steps of its memory
    followed by its embeddings. *)
Theorem cache_memory_window b m_len q_len hidden
    (memory embeddings : Tensor A) (m_seq_len : Z) :
  shape memory = [b; m_len; hidden] ->
  shape embeddings = [b; q_len; hidden] ->
  well_formed memory -> well_formed embeddings ->
  (1 <= m_seq_len <= Z.of_nat (m_len + q_len))%Z ->
  exists new_memory,
    cache_memory memory embeddings (Some m_seq_len) = Some new_memory
    /\ shape new_memory = [b; Z.to_nat m_seq_len; hidden]
    /\ well_formed new_memory
    /\ data new_memory
       = flat_map (last_steps (Z.to_nat m_seq_len) hidden)
           (concat_time b m_len q_len hidden
                        (data memory) (data embeddings)).
Proof.
  intros Hsm Hse Hwm Hwe Hm.
  rewrite (cache_memory_last_steps Hsm Hse Hwm Hwe Hm).
  eexists; split; [reflexivity |].
  cbn [shape data]. split; [reflexivity |]. split; [| reflexivity].
  red in Hwm, Hwe. rewrite Hsm in Hwm. rewrite Hse in Hwe.
  cbn [numel fold_right] in Hwm, Hwe. rewrite Nat.mul_1_r in Hwm, Hwe.
  red. cbn [shape data numel fold_right].
  apply well_formed_window with (k := (m_len + q_len) * hidden).
  - apply length_concat_time.
  - now apply concat_time_each.
  - nia.
Qed.

(** X9. With the default [m_seq_len] and a memory of at least one step,
    the new memory has the shape of the old one and holds the last
    [m_len] steps of memory followed by embeddings. *)
Theorem cache_memory_default_keeps_shape b m_len q_len hidden
    (memory embeddings : Tensor A) :
  shape memory = [b; m_len; hidden] ->
  shape embeddings = [b; q_len; hidden] ->
  well_formed memory -> well_formed embeddings ->
  1 <= m_len ->
  exists new_memory,
    cache_memory memory embeddings None = Some new_memory
    /\ shape new_memory = shape memory
    /\ well_formed new_memory
    /\ data new_memory
       = flat_map (last_steps m_len hidden)
           (concat_time b m_len q_len hidden
                        (data memory) (data embeddings)).
Proof.
  intros Hsm Hse Hwm Hwe Hm.
  assert (Hdefault : cache_memory memory embeddings None
                     = cache_memory memory embeddings
                                    (Some (Z.of_nat m_len)))
    by (unfold cache_memory; now rewrite Hsm).
  rewrite Hdefault.
  rewrite (cache_memory_last_steps Hsm Hse Hwm Hwe)
    by lia.
  rewrite Nat2Z.id.
  eexists; split; [reflexivity |].
  cbn [shape data]. split; [now rewrite Hsm |]. split; [| reflexivity].
  red in Hwm, Hwe. rewrite Hsm in Hwm. rewrite Hse in Hwe.
  cbn [numel fold_right] in Hwm, Hwe. rewrite Nat.mul_1_r in Hwm, Hwe.
  red. cbn [shape data numel fold_right].
  apply well_formed_window with (k := (m_len + q_len) * hidden).
  - apply length_concat_time.
  - now apply concat_time_each.
  - nia.
Qed.

(** X10. With the default [m_seq_len] and an empty memory (time-length
    0), [cache_memory] returns the embeddings themselves: the new memory
    has [q_len] steps, not 0. *)
Theorem cache_memory_default_empty_memory b q_len hidden
    (memory embeddings : Tensor A) :
  shape memory = [b; 0; hidden] ->
  shape embeddings = [b; q_len; hidden] ->
  well_formed memory -> well_formed embeddings ->
  cache_memory memory embeddings None = Some embeddings.
Proof.
  intros Hsm Hse Hwm Hwe.
  assert (Hdefault : cache_memory memory embeddings None
                     = cache_memory memory embeddings (Some 0%Z))
    by (unfold cache_memory; now rewrite Hsm).
  rewrite Hdefault.
  rewrite (cache_memory_slice 0 Hsm Hse Hwm Hwe).
  cbn [Z.opp slice_begin Z.ltb Z.compare Z.to_nat Nat.min Nat.mul Nat.add
       skipn].
  rewrite Nat.sub_0_r.
  red in Hwe. rewrite Hse in Hwe.
  cbn [numel fold_right] in Hwe. rewrite Nat.mul_1_r in Hwe.
  unfold concat_time. cbn [Nat.mul].
  rewrite zip_app_empty by apply length_chunks.
  rewrite flat_map_concat_map, map_id, concat_chunks by assumption.
  destruct embeddings as [sh dt]. cbn [shape data] in *. now subst sh.
Qed.

(** X11. For [1 <= m_seq_len <= q_len] nothing of the old memory is
    kept: the result is the last [m_seq_len] steps of the embeddings
    alone. *)
Theorem cache_memory_forgets_memory b m_len q_len hidden
    (memory embeddings : Tensor A) (m_seq_len : Z) :
  shape memory = [b; m_len; hidden] ->
  shape embeddings = [b; q_len; hidden] ->
  well_formed memory -> well_formed embeddings ->
  (1 <= m_seq_len <= Z.of_nat q_len)%Z ->
  cache_memory memory embeddings (Some m_seq_len)
  = Some (mkTensor [b; Z.to_nat m_seq_len; hidden]
            (flat_map (last_steps (Z.to_nat m_seq_len) hidden)
                      (chunks b (q_len * hidden) (data embeddings)))).
Proof.
  intros Hsm Hse Hwm Hwe Hm.
  rewrite (cache_memory_last_steps Hsm Hse Hwm Hwe) by lia.
  do 2 f_equal.
  red in Hwe. rewrite Hse in Hwe.
  cbn [numel fold_right] in Hwe. rewrite Nat.mul_1_r in Hwe.
  rewrite !flat_map_concat_map. f_equal.
  unfold concat_time. apply zip_app_last_new.
  - now rewrite !length_chunks.
  - eapply Forall_impl; [| apply chunks_each; lia].
    cbv beta; intros e He. nia.
Qed.

Lemma tf_concat_time b q1 q2 hidden (e1 e2 : Tensor A) :
  shape e1 = [b; q1; hidden] ->
  shape e2 = [b; q2; hidden] ->
  tf_concat e1 e2 1
  = Some (mkTensor [b; q1 + q2; hidden]
            (concat (concat_time b q1 q2 hidden (data e1) (data e2)))).
Proof.
  intros Hs1 Hs2. unfold tf_concat. rewrite Hs1, Hs2.
  cbn [concat_shape]. rewrite Nat.eqb_refl.
  destruct (list_eq_dec Nat.eq_dec [hidden] [hidden]); [| congruence].
  cbn [option_map concat_data numel fold_right]. rewrite !Nat.mul_1_r.
  reflexivity.
Qed.

(** X12. Two updates compose: caching segment [e1] and then segment
    [e2] gives the same memory as caching their time-axis concatenation
    in one call, for [1 <= m_seq_len <= m_len + q1]. *)
Theorem cache_memory_twice b m_len q1 q2 hidden
    (memory e1 e2 : Tensor A) (m_seq_len : Z) :
  shape memory = [b; m_len; hidden] ->
  shape e1 = [b; q1; hidden] ->
  shape e2 = [b; q2; hidden] ->
  well_formed memory -> well_formed e1 -> well_formed e2 ->
  (1 <= m_seq_len <= Z.of_nat (m_len + q1))%Z ->
  exists memory1 e12 memory2,
    cache_memory memory e1 (Some m_seq_len) = Some memory1
    /\ tf_concat e1 e2 1 = Some e12
    /\ cache_memory memory1 e2 (Some m_seq_len) = Some memory2
    /\ cache_memory memory e12 (Some m_seq_len) = Some memory2.
Proof.
  intros Hsm Hs1 Hs2 Hwm Hw1 Hw2 Hm.
  set (n := Z.to_nat m_seq_len).
  pose proof Hwm as Lm. pose proof Hw1 as L1. pose proof Hw2 as L2.
  red in Lm, L1, L2. rewrite Hsm in Lm. rewrite Hs1 in L1. rewrite Hs2 in L2.
  cbn [numel fold_right] in Lm, L1, L2. rewrite Nat.mul_1_r in Lm, L1, L2.
  set (ms := chunks b (m_len * hidden) (data memory)).
  set (c1 := chunks b (q1 * hidden) (data e1)).
  set (c2 := chunks b (q2 * hidden) (data e2)).
  assert (Hms : Forall (fun a => length a = m_len * hidden) ms)
    by (apply chunks_each; lia).
  assert (Hc1 : Forall (fun a => length a = q1 * hidden) c1)
    by (apply chunks_each; lia).
  assert (Hc2 : Forall (fun a => length a = q2 * hidden) c2)
    by (apply chunks_each; lia).
  (* the first update *)
  rewrite (cache_memory_last_steps Hsm Hs1 Hwm Hw1 Hm). fold n.
  set (memory1 :=
         mkTensor [b; n; hidden]
           (flat_map (last_steps n hidden)
              (concat_time b m_len q1 hidden (data memory) (data e1)))).
  assert (Hct1 : Forall (fun x => length x = (m_len + q1) * hidden)
                   (concat_time b m_len q1 hidden (data memory) (data e1)))
    by now apply concat_time_each.
  assert (Hw1' : well_formed memory1).
  { red. cbn [memory1 shape data numel fold_right].
    apply well_formed_window with (k := (m_len + q1) * hidden);
      [apply length_concat_time | assumption | unfold n; nia]. }
  (* the two segments as one *)
  rewrite (tf_concat_time e1 e2 Hs1 Hs2).
  set (e12 := mkTensor [b; q1 + q2; hidden]
                (concat (concat_time b q1 q2 hidden (data e1) (data e2)))).
  assert (Hct12 : Forall (fun x => length x = (q1 + q2) * hidden)
                    (concat_time b q1 q2 hidden (data e1) (data e2)))
    by now apply concat_time_each.
  assert (Hw12 : well_formed e12).
  { red. cbn [e12 shape data numel fold_right].
    rewrite (length_concat_uniform Hct12), length_concat_time. lia. }
  exists memory1, e12.
  rewrite (@cache_memory_last_steps A b n q2 hidden memory1 e2 m_seq_len
             eq_refl Hs2 Hw1' Hw2) by (unfold n; lia).
  rewrite (@cache_memory_last_steps A b m_len (q1 + q2) hidden memory e12
             m_seq_len Hsm eq_refl Hwm Hw12) by lia.
  fold n. eexists. split; [reflexivity |]. split; [reflexivity |].
  split; [reflexivity |].
  do 2 f_equal. cbn [memory1 e12 data].
  rewrite !flat_map_concat_map. f_equal.
  unfold concat_time at 1 3. fold ms c1 c2.
  assert (Hch1 : chunks b (n * hidden)
                   (concat (map (last_steps n hidden)
                      (concat_time b m_len q1 hidden (data memory) (data e1))))
                 = map (last_steps n hidden)
                     (concat_time b m_len q1 hidden (data memory) (data e1))).
  { rewrite <- (length_concat_time b m_len q1 hidden (data memory) (data e1))
      at 1.
    rewrite <- (length_map (last_steps n hidden)).
    apply chunks_concat.
    apply Forall_map. eapply Forall_impl; [| exact Hct1].
    cbv beta; intros x Hx. apply length_last_steps. unfold n; nia. }
  assert (Hch2 : chunks b ((q1 + q2) * hidden)
                   (concat (concat_time b q1 q2 hidden (data e1) (data e2)))
                 = concat_time b q1 q2 hidden (data e1) (data e2)).
  { rewrite <- (length_concat_time b q1 q2 hidden (data e1) (data e2)) at 1.
    now apply chunks_concat. }
  rewrite Hch1, Hch2. unfold concat_time. fold ms c1 c2.
  symmetry.
  apply zip_app_last_twice with (k1 := m_len * hidden) (k2 := q1 * hidden);
    [assumption | assumption | unfold n; nia].
Qed.

(** X13. On rank-3 inputs [cache_memory] fails exactly when the batch
    sizes or the hidden sizes of [memory] and [embeddings] differ; the
    time-lengths and [m_seq_len] never make it fail. *)
Theorem cache_memory_rejects_mismatch b1 b2 m_len q_len h1 h2
    (memory embeddings : Tensor A) (m_seq_len : option Z) :
  shape memory = [b1; m_len; h1] ->
  shape embeddings = [b2; q_len; h2] ->
  cache_memory memory embeddings m_seq_len = None
  <-> (b1 <> b2 \/ h1 <> h2).
Proof.
  intros Hsm Hse. unfold cache_memory, tf_concat, tf_slice.
  rewrite Hsm, Hse. cbn [nth_error option_map concat_shape].
  destruct (Nat.eqb_spec b1 b2) as [Hb | Hb].
  - destruct (list_eq_dec Nat.eq_dec [h1] [h2]) as [Hh | Hh].
    + cbn [option_map shape length Nat.leb].
      destruct m_seq_len; split; try discriminate;
        intros [Hne | Hne]; congruence.
    + cbn [option_map].
      destruct m_seq_len; split; auto; intros _; right; congruence.
  - destruct m_seq_len; split; auto.
Qed.

End CacheMemoryWindow.


Lemma cache_memory_window_witness :
  shape memory_1 = [1; 1; 1]
  /\ shape embeddings_1 = [1; 1; 1]
  /\ well_formed memory_1 /\ well_formed embeddings_1
  /\ (1 <= 2 <= Z.of_nat (1 + 1))%Z
  /\ exists new_memory,
       cache_memory memory_1 embeddings_1 (Some 2%Z) = Some new_memory
       /\ shape new_memory = [1; Z.to_nat 2; 1]
       /\ well_formed new_memory
       /\ data new_memory
          = flat_map (last_steps (Z.to_nat 2) 1)
              (concat_time 1 1 1 1 (data memory_1) (data embeddings_1)).
Proof.
  repeat (split; [first [reflexivity | lia] |]).
  apply (@cache_memory_window Z 1 1 1 1 memory_1 embeddings_1 2%Z);
    first [reflexivity | lia].
Defined.

Lemma cache_memory_default_keeps_shape_witness :
  shape memory_1 = [1; 1; 1]
  /\ shape embeddings_1 = [1; 1; 1]
  /\ well_formed memory_1 /\ well_formed embeddings_1
  /\ 1 <= 1
  /\ exists new_memory,
       cache_memory memory_1 embeddings_1 None = Some new_memory
       /\ shape new_memory = shape memory_1
       /\ well_formed new_memory
       /\ data new_memory
          = flat_map (last_steps 1 1)
              (concat_time 1 1 1 1 (data memory_1) (data embeddings_1)).
Proof.
  repeat (split; [first [reflexivity | lia] |]).
  apply (@cache_memory_default_keeps_shape Z 1 1 1 1 memory_1 embeddings_1);
    first [reflexivity | lia].
Defined.

Lemma cache_memory_default_empty_memory_witness :
  shape (mkTensor [1; 0; 1] (@nil Z)) = [1; 0; 1]
  /\ shape embeddings_1 = [1; 1; 1]
  /\ well_formed (mkTensor [1; 0; 1] (@nil Z))
  /\ well_formed embeddings_1
  /\ cache_memory (mkTensor [1; 0; 1] (@nil Z)) embeddings_1 None
     = Some embeddings_1.
Proof.
  repeat (split; [reflexivity |]).
  apply (@cache_memory_default_empty_memory Z 1 1 1
           (mkTensor [1; 0; 1] (@nil Z)) embeddings_1); reflexivity.
Defined.

Lemma cache_memory_forgets_memory_witness :
  shape memory_1 = [1; 1; 1]
  /\ shape embeddings_1 = [1; 1; 1]
  /\ well_formed memory_1 /\ well_formed embeddings_1
  /\ (1 <= 1 <= Z.of_nat 1)%Z
  /\ cache_memory memory_1 embeddings_1 (Some 1%Z)
     = Some (mkTensor [1; Z.to_nat 1; 1]
               (flat_map (last_steps (Z.to_nat 1) 1)
                         (chunks 1 (1 * 1) (data embeddings_1)))).
Proof.
  repeat (split; [first [reflexivity | lia] |]).
  apply (@cache_memory_forgets_memory Z 1 1 1 1 memory_1 embeddings_1 1%Z);
    first [reflexivity | lia].
Defined.

Lemma cache_memory_twice_witness :
  shape memory_1 = [1; 1; 1]
  /\ shape embeddings_1 = [1; 1; 1]
  /\ shape (mkTensor [1; 2; 1] [3; 4]%Z) = [1; 2; 1]
  /\ well_formed memory_1 /\ well_formed embeddings_1
  /\ well_formed (mkTensor [1; 2; 1] [3; 4]%Z)
  /\ (1 <= 2 <= Z.of_nat (1 + 1))%Z
  /\ exists memory1 e12 memory2,
       cache_memory memory_1 embeddings_1 (Some 2%Z) = Some memory1
       /\ tf_concat embeddings_1 (mkTensor [1; 2; 1] [3; 4]%Z) 1 = Some e12
       /\ cache_memory memory1 (mkTensor [1; 2; 1] [3; 4]%Z) (Some 2%Z)
          = Some memory2
       /\ cache_memory memory_1 e12 (Some 2%Z) = Some memory2.
Proof.
  repeat (split; [first [reflexivity | lia] |]).
  apply (@cache_memory_twice Z 1 1 1 2 1 memory_1 embeddings_1
           (mkTensor [1; 2; 1] [3; 4]%Z) 2%Z);
    first [reflexivity | lia].
Defined.

Lemma cache_memory_rejects_mismatch_witness :
  shape memory_1 = [1; 1; 1]
  /\ shape (mkTensor [2; 1; 1] [3; 4]%Z) = [2; 1; 1]
  /\ (cache_memory memory_1 (mkTensor [2; 1; 1] [3; 4]%Z) (Some 1%Z) = None
      <-> (1 <> 2 \/ 1 <> 1)).
Proof.
  repeat (split; [reflexivity |]).
  apply (@cache_memory_rejects_mismatch Z 1 2 1 1 1 1 memory_1
           (mkTensor [2; 1; 1] [3; 4]%Z) (Some 1%Z)); reflexivity.
Defined.

(** ** get_positional_encoding, further *)

Lemma map_seq_shift B (f : nat -> B) k s n :
  map f (seq (k + s) n) = map (fun i => f (k + i)) (seq s n).
Proof.
  revert s; induction n; intros s; cbn [seq map]; auto.
  f_equal. rewrite <- Nat.add_succ_r. apply IHn.
Qed.

Section PositionalEncodingRelative.
Context {F : Type} `{Scalar F}.

(** X14. [get_positional_encoding] fails exactly when [seq_len] or
    [hidden_size] is negative. *)
Theorem positional_encoding_rejects (seq_len hidden_size : Z) :
  get_positional_encoding seq_len hidden_size = None
  <-> (seq_len < 0 \/ hidden_size < 0)%Z.
Proof.
  split.
  - intros Hnone.
    destruct (Z.lt_ge_cases seq_len 0) as [Hn | Hn]; [now left |].
    destruct (Z.lt_ge_cases hidden_size 0) as [Hh | Hh]; [now right |].
    rewrite get_positional_encoding_rows in Hnone by assumption.
    discriminate.
  - intros Hneg. unfold get_positional_encoding, tf_range.
    destruct (Z.lt_ge_cases seq_len 0) as [Hn | Hn].
    + unfold range_values at 1.
      cbn [Z.eqb Z.ltb Z.compare andb].
      destruct (Z.ltb_spec (seq_len - 1) (-1)); [reflexivity | lia].
    + assert (Hh : (hidden_size < 0)%Z) by lia.
      rewrite range_values_down by assumption.
      unfold range_values.
      cbn [Z.eqb Z.ltb Z.compare andb].
      destruct (Z.ltb_spec hidden_size 0); [reflexivity | lia].
Qed.

Lemma encoding_row_distance seq_len k hidden_size half i :
  encoding_row (seq_len + Z.of_nat k) hidden_size half (k + i)
  = encoding_row seq_len hidden_size half i.
Proof.
  unfold encoding_row, angle.
  replace (seq_len + Z.of_nat k - 1 - Z.of_nat (k + i))%Z
    with (seq_len - 1 - Z.of_nat i)%Z by lia.
  reflexivity.
Qed.

(** X15. The encoding is relative to the end of the sequence: the
    encoding for [seq_len] is the last [seq_len] rows of the encoding for
    the longer length [seq_len + extra]. *)
Theorem positional_encoding_suffix (seq_len extra hidden_size : Z) :
  (0 <= seq_len)%Z -> (0 <= extra)%Z -> (0 <= hidden_size)%Z ->
  exists longer shorter width,
    get_positional_encoding (seq_len + extra) hidden_size = Some longer
    /\ get_positional_encoding seq_len hidden_size = Some shorter
    /\ shape longer = [Z.to_nat (seq_len + extra); width]
    /\ shape shorter = [Z.to_nat seq_len; width]
    /\ data shorter = skipn (Z.to_nat extra * width) (data longer).
Proof.
  intros Hn Hk Hh.
  rewrite !get_positional_encoding_rows by lia.
  set (half := Z.to_nat ((hidden_size + 1) / 2)).
  do 3 eexists.
  split; [reflexivity |]. split; [reflexivity |].
  cbn [shape data]. split; [reflexivity |]. split; [reflexivity |].
  set (k := Z.to_nat extra). set (n := Z.to_nat seq_len).
  replace (Z.to_nat (seq_len + extra)) with (k + n) by lia.
  replace (seq_len + extra)%Z with (seq_len + Z.of_nat k)%Z by lia.
  rewrite seq_app, map_app, concat_app. cbn [Nat.add].
  rewrite skipn_app.
  rewrite (length_concat_uniform
             (encoding_row_each (seq_len + Z.of_nat k) hidden_size half k)).
  rewrite length_map, length_seq, Nat.sub_diag.
  rewrite skipn_all2
    by (rewrite (length_concat_uniform
                   (encoding_row_each (seq_len + Z.of_nat k)
                                      hidden_size half k));
        now rewrite length_map, length_seq).
  cbn [app skipn]. f_equal.
  replace (seq k n) with (seq (k + 0) n) by now rewrite Nat.add_0_r.
  rewrite map_seq_shift.
  apply map_ext. intros i. symmetry. apply encoding_row_distance.
Qed.

End PositionalEncodingRelative.


Lemma positional_encoding_suffix_witness :
  (0 <= 2)%Z /\ (0 <= 1)%Z /\ (0 <= 4)%Z
  /\ exists (longer shorter : Tensor R) width,
       get_positional_encoding (2 + 1) 4 = Some longer
       /\ get_positional_encoding 2 4 = Some shorter
       /\ shape longer = [Z.to_nat (2 + 1); width]
       /\ shape shorter = [Z.to_nat 2; width]
       /\ data shorter = skipn (Z.to_nat 1 * width) (data longer).
Proof.
  split; [lia | split; [lia | split; [lia |]]].
  apply (@positional_encoding_suffix R R_Scalar 2 1 4); lia.
Defined.
